(** * The Dynatrace API client core: [HttpClient.makeRequest] and
      [HttpClient.paginatedCall]

    A shallow embedding of [src/dynatrace-api/http_client.ts]: the request
    executor, its three-way error normalisation and the cursor paginator,
    with the transport ([axios.request]) as an explicit deterministic
    function of the requests sent so far, and the caller's headers object
    as a cell of a store, because [makeRequest] writes to it in place.
    The calls to [logger.debug] and [logger.error] do not bear on what the
    two functions return or send, and are left out.

    Around this core: [ExtensionsServiceV1.getExtensions], a caller with a
    pagination loop of its own, over the client as it sees it; and the pure
    functions of [utils/extensionParsing] that read the extension manifest
    (module [ExtensionParsing]). *)

From Stdlib Require Import Ascii.
From stdpp Require Import gmap strings list fin_maps pretty.

Open Scope string_scope.
Open Scope list_scope.
#[local] Set Warnings "-register-all".

(** ** Values *)

(** Values exchanged with the transport: decoded JSON, plus [undefined].
    An object is the list of its own properties in insertion order.
    Numbers are the integers (status codes, error codes, page sizes).
    [VNative] stands for an object of the engine's own, which a decoded
    value reaches through its prototype: a built-in method
    ([Object.prototype.toString], [Array.prototype.push], ...), a
    constructor, or [Object.prototype] itself. *)
Inductive JsValue : Type :=
  | VUndefined
  | VNull
  | VBool (b : bool)
  | VNum (n : Z)
  | VStr (s : string)
  | VArr (xs : list JsValue)
  | VObj (props : list (string * JsValue))
  | VNative.

(** Truthiness, as tested by [while (nextPageKey)]. *)
Definition truthy (v : JsValue) : bool :=
  match v with
  | VUndefined | VNull => false
  | VBool b => b
  | VNum n => negb (n =? 0)%Z
  | VStr s => negb (String.eqb s "")
  | VArr _ | VObj _ | VNative => true
  end.

(** Strict comparison of a value with a string literal
    ([nextPageKey !== "firstCall"] is its negation). *)
Definition isStr (v : JsValue) (lit : string) : bool :=
  match v with
  | VStr s => String.eqb s lit
  | _ => false
  end.

(** First binding of a key in a property list. *)
Fixpoint assoc (k : string) (props : list (string * JsValue)) : option JsValue :=
  match props with
  | [] => None
  | (k', v) :: rest => if String.eqb k k' then Some v else assoc k rest
  end.

(** The run-time faults the two functions can provoke: a property read on
    [undefined] or [null], the [in] operator on a value that is not an
    object, and the spread of a value that is not iterable.  Each surfaces
    as a [TypeError]. *)
Inductive Fault : Type :=
  | CannotRead (prop : string) (target : JsValue)
  | CannotUseIn (prop : string) (target : JsValue)
  | NotIterable (v : JsValue).

(** The string-named properties of [Object.prototype], which every object
    and every array inherits: eleven methods and the accessor [__proto__]. *)
Definition objectPrototype : list string :=
  ["constructor"; "__defineGetter__"; "__defineSetter__"; "hasOwnProperty";
   "__lookupGetter__"; "__lookupSetter__"; "isPrototypeOf";
   "propertyIsEnumerable"; "toString"; "valueOf"; "__proto__";
   "toLocaleString"].

(** The string-named methods of [Array.prototype] (ECMAScript 2023). *)
Definition arrayPrototype : list string :=
  ["constructor"; "at"; "concat"; "copyWithin"; "fill"; "find"; "findIndex";
   "findLast"; "findLastIndex"; "lastIndexOf"; "pop"; "push"; "reverse";
   "shift"; "unshift"; "slice"; "sort"; "splice"; "includes"; "indexOf";
   "join"; "keys"; "entries"; "values"; "forEach"; "filter"; "flat";
   "flatMap"; "map"; "every"; "some"; "reduce"; "reduceRight";
   "toLocaleString"; "toString"; "toReversed"; "toSorted"; "toSpliced";
   "with"].

Definition named (k : string) (names : list string) : bool :=
  existsb (String.eqb k) names.

(** The element of an array under the key [k], when [k] is the decimal
    numeral of an index below the length; [i] is the index of the head. *)
Fixpoint elementAt (k : string) (i : nat) (xs : list JsValue) : option JsValue :=
  match xs with
  | [] => None
  | x :: rest => if String.eqb k (pretty i) then Some x else elementAt k (S i) rest
  end.

(** What a read finds along the prototype chain, past the own properties.
    An object inherits from [Object.prototype].  An array has [length],
    and inherits from [Array.prototype], itself an array of length 0, and
    then from [Object.prototype]. *)
Definition inheritedByObject (k : string) : option JsValue :=
  if named k objectPrototype then Some VNative else None.

Definition inheritedByArray (xs : list JsValue) (k : string) : option JsValue :=
  if String.eqb k "length" then Some (VNum (Z.of_nat (length xs)))
  else if String.eqb k "__proto__" then Some (VArr [])
  else if named k arrayPrototype || named k objectPrototype then Some VNative
  else None.

(** The property [k] of [v], own or inherited, when [v] is an object or an
    array. *)
Definition lookupProp (v : JsValue) (k : string) : option JsValue :=
  match v with
  | VObj props =>
      match assoc k props with
      | Some x => Some x
      | None => inheritedByObject k
      end
  | VArr xs =>
      match elementAt k 0 xs with
      | Some x => Some x
      | None => inheritedByArray xs k
      end
  | VNative => inheritedByObject k
  | _ => None
  end.

(** [v.k] and [v[k]].  A read on [undefined] or [null] is a [TypeError];
    a property that is not found reads as [undefined].  On a string, a
    number or a boolean the code reads only the fixed keys [data], [error],
    [nextPageKey] and [extensions], which no primitive has; the built-in
    properties of primitives, and the own properties of a built-in
    ([name], [length], ...), are not modelled. *)
Definition getProp (v : JsValue) (k : string) : Fault + JsValue :=
  match v with
  | VUndefined | VNull => inl (CannotRead k v)
  | _ => inr (default VUndefined (lookupProp v k))
  end.

(** [k in v]: true when the object or the array has the property, own or
    inherited; a primitive on the right-hand side is a [TypeError]. *)
Definition hasProp (k : string) (v : JsValue) : Fault + bool :=
  match v with
  | VObj _ | VArr _ | VNative => inr (bool_decide (is_Some (lookupProp v k)))
  | _ => inl (CannotUseIn k v)
  end.

(** [...v] in an argument list.  A string spreads into its characters;
    an object, a function and every other value is not iterable. *)
Definition spread (v : JsValue) : Fault + list JsValue :=
  match v with
  | VArr xs => inr xs
  | VStr s => inr ((fun c => VStr (String c EmptyString)) <$> String.list_ascii_of_string s)
  | _ => inl (NotIterable v)
  end.

(** What [if (item in response) { items.push(...response[item]); }] appends
    to [items]: nothing when the page has no such property, own or
    inherited. *)
Definition pushed (item : string) (response : JsValue) : Fault + list JsValue :=
  match hasProp item response with
  | inl f => inl f
  | inr false => inr []
  | inr true =>
      match getProp response item with
      | inl f => inl f
      | inr v => spread v
      end
  end.

(** ** Errors *)

(** What a promise of this module can reject with.  [ApiError] is
    [new DynatraceAPIError(message, errorParams)]; [ErrorObject] is any other
    error object, seen the way the [catch] handler inspects it: its own
    enumerable keys, its [message] and its [response] property. *)
Inductive Thrown : Type :=
  | ApiError (message : string) (errorParams : JsValue)
  | ErrorObject (keys : list string) (message : string) (response : JsValue).

(** Modelled from the spec: the class [DynatraceAPIError] of
    [dynatrace-api/errors] is not among the sources.  The spec gives it a
    human-readable message plus a structured detail; its callers read
    [err.message] and [err.errorParams].  Its only own enumerable property
    is therefore [errorParams] ([message] of an [Error] is not enumerable). *)
Definition apiErrorKeys : list string := ["errorParams"].

Definition thrownKeys (e : Thrown) : list string :=
  match e with
  | ApiError _ _ => apiErrorKeys
  | ErrorObject keys _ _ => keys
  end.

Definition thrownMessage (e : Thrown) : string :=
  match e with
  | ApiError m _ => m
  | ErrorObject _ m _ => m
  end.

Definition thrownResponse (e : Thrown) : JsValue :=
  match e with
  | ApiError _ _ => VUndefined
  | ErrorObject _ _ r => r
  end.

(** Result of an awaited call. *)
Inductive Completion (A : Type) : Type :=
  | Return (a : A)
  | Throw (e : Thrown).
Arguments Return {A} a.
Arguments Throw {A} e.

(** ** Requests *)

(** [files?: { file: Buffer; name: string }] *)
Record Upload : Type := { file : list Byte.byte; name : string }.

(** One [form.append(field, bytes, filename)]. *)
Record FormPart : Type :=
  { part_field : string; part_bytes : list Byte.byte; part_filename : string }.

Definition FormData : Type := list FormPart.

Definition append (form : FormData) (field : string) (bytes : list Byte.byte)
    (filename : string) : FormData :=
  (form ++ [{| part_field := field; part_bytes := bytes; part_filename := filename |}])%list.

(** [data: files ? form : body] *)
Inductive RequestData : Type :=
  | DataForm (form : FormData)
  | DataBody (body : JsValue).

(** The object handed to [axios.request]; [req_headers] is the content of the
    headers object at the moment of the call. *)
Record AxiosRequestConfig : Type :=
  { req_url : string;
    req_headers : gmap string string;
    req_params : JsValue;
    req_method : string;
    req_data : RequestData;
    req_responseType : option string }.

Record AxiosResponse : Type := { status : Z; res_data : JsValue }.

(** How the promise returned by [axios.request] settles. *)
Inductive Settled : Type :=
  | Resolved (res : AxiosResponse)
  | Rejected (err : Thrown).

(** The transport: the answer to a request may depend on the requests that
    were sent before it. *)
Definition Transport : Type := list AxiosRequestConfig → AxiosRequestConfig → Settled.

(** ** The store *)

(** Headers objects live in a store and are passed by reference. *)
Definition ref : Type := nat.

Record World : Type :=
  { objects : gmap ref (gmap string string);
    sent : list AxiosRequestConfig }.

Definition readObject (l : ref) (w : World) : gmap string string :=
  default ∅ (objects w !! l).

Definition writeObject (l : ref) (h : gmap string string) (w : World) : World :=
  {| objects := <[l := h]> (objects w); sent := sent w |}.

(** A reference that no object of the store has. *)
Definition newRef (w : World) : ref := fresh (dom (objects w)).

Definition record (cfg : AxiosRequestConfig) (w : World) : World :=
  {| objects := objects w; sent := (sent w ++ [cfg])%list |}.

(** ** The client *)

(** [new HttpClient(baseUrl, apiToken)] *)
Record HttpClient : Type := { baseUrl : string; apiToken : string }.

(** What the JavaScript engine contributes: the text of
    [JSON.stringify(value, undefined, space)] and the message of each
    [TypeError]. *)
Record Engine : Type :=
  { JSON_stringify : JsValue → nat → string;
    faultMessage : Fault → string }.

Section Client.

Variable engine : Engine.
Variable this : HttpClient.
Variable axios_request : Transport.

(** A [TypeError] has no own enumerable property. *)
Definition typeError (f : Fault) : Thrown :=
  ErrorObject [] (faultMessage engine f) VUndefined.

(** The object literal [{ code: 0, constraintViolations: [], message }]. *)
Definition errorParamsOf (message : string) : JsValue :=
  VObj [("code", VNum 0); ("constraintViolations", VArr []); ("message", VStr message)].

(** The [.then] handler of [makeRequest]. *)
Definition onFulfilled (url : string) (res : AxiosResponse) : Completion JsValue :=
  if bool_decide (400 ≤ status res)%Z then
    let errorData := res_data res in
    let message :=
      "Error making request to " +:+ url +:+ ": " +:+ pretty (status res) +:+
      ". Response: " +:+ JSON_stringify engine errorData 2 in
    match getProp errorData "error" with
    | inl f => Throw (typeError f)
    | inr errorParams => Throw (ApiError message errorParams)
    end
  else Return (res_data res).

(** The [.catch] handler of [makeRequest]. *)
Definition onRejected (url : string) (err : Thrown) : Thrown :=
  if bool_decide ("response" ∈ thrownKeys err) then
    match getProp (thrownResponse err) "data" with
    | inl f => typeError f
    | inr d =>
        match getProp d "error" with
        | inl f => typeError f
        | inr errorParams => ApiError (thrownMessage err) errorParams
        end
    end
  else if bool_decide ("request" ∈ thrownKeys err) then
    ApiError ("No response from server " +:+ baseUrl this)
      (errorParamsOf (thrownMessage err))
  else
    let message :=
      "Error making request to " +:+ url +:+ ": " +:+ thrownMessage err +:+ "." in
    ApiError message (errorParamsOf message).

(** [axios.request(...).then(...).catch(...)]: the [catch] handler also
    receives what the [then] handler throws. *)
Definition settle (url : string) (s : Settled) : Completion JsValue :=
  match s with
  | Resolved res =>
      match onFulfilled url res with
      | Return v => Return v
      | Throw e => Throw (onRejected url e)
      end
  | Rejected err => Throw (onRejected url err)
  end.

(** The headers object a call works on: the caller's, or a new empty one
    when the argument is omitted ([headers = {}]). *)
Definition headersObject (headers : option ref) (w : World) : ref * World :=
  match headers with
  | Some l => (l, w)
  | None => let l := newRef w in (l, writeObject l ∅ w)
  end.

(** The request that [makeRequest] builds, from the arguments and the
    content [h] of the headers object on entry. *)
Definition buildRequest (path : string) (params : JsValue) (method : string)
    (h : gmap string string) (queryParams : JsValue) (files : option Upload)
    (responseType : option string) : AxiosRequestConfig :=
  let url := baseUrl this +:+ path in
  let '(body, params) :=
    if bool_decide (method = "POST") || bool_decide (method = "PUT")
    then (params, queryParams) else (VNull, params) in
  let h :=
    if bool_decide ("Content-Type" ∈ dom h) then h
    else <["Content-type" := "application/json"]> h in
  let form : FormData := [] in
  let '(h, form) :=
    match files with
    | Some f => (<["Content-type" := "multipart/form-data"]> h,
                 append form "file" (file f) (name f))
    | None => (h, form)
    end in
  let h := <["Authorization" := "Api-Token " +:+ apiToken this]> h in
  {| req_url := url;
     req_headers := h;
     req_params := params;
     req_method := method;
     req_data := match files with Some _ => DataForm form | None => DataBody body end;
     req_responseType := responseType |}.

(** The request a call of [makeRequest] hands to [axios.request] when it
    starts in world [w]. *)
Definition issued (path : string) (params : JsValue) (method : option string)
    (headers : option ref) (queryParams : JsValue) (files : option Upload)
    (responseType : option string) (w : World) : AxiosRequestConfig :=
  let '(l, w) := headersObject headers w in
  buildRequest path params (default "GET" method) (readObject l w)
    queryParams files responseType.

(** [makeRequest(path, params?, method = "GET", headers = {}, queryParams?,
    files?, responseType?)].  The headers object is updated in the store
    before the request is issued. *)
Definition makeRequest (path : string) (params : JsValue) (method : option string)
    (headers : option ref) (queryParams : JsValue) (files : option Upload)
    (responseType : option string) (w : World) : Completion JsValue * World :=
  let '(l, w) := headersObject headers w in
  let cfg := buildRequest path params (default "GET" method) (readObject l w)
               queryParams files responseType in
  let w := writeObject l (req_headers cfg) w in
  let answer := axios_request (sent w) cfg in
  (settle (req_url cfg) answer, record cfg w).

(** The [while (nextPageKey)] loop of [paginatedCall].  The number of pages
    is the server's choice, so the loop carries a bound on its iterations
    and answers [None] when the bound is reached with a cursor still
    pending. *)
Fixpoint paginatedLoop (fuel : nat) (path item : string) (headers : ref)
    (params nextPageKey : JsValue) (items : list JsValue) (w : World)
    : option (Completion (list JsValue) * World) :=
  if truthy nextPageKey then
    match fuel with
    | O => None
    | S fuel =>
        let params :=
          if negb (isStr nextPageKey "firstCall")
          then VObj [("nextPageKey", nextPageKey)] else params in
        match makeRequest path params (Some "GET") (Some headers)
                VUndefined None None w with
        | (Throw e, w) => Some (Throw e, w)
        | (Return response, w) =>
            match getProp response "nextPageKey" with
            | inl f => Some (Throw (typeError f), w)
            | inr nextPageKey =>
                match pushed item response with
                | inl f => Some (Throw (typeError f), w)
                | inr xs =>
                    paginatedLoop fuel path item headers params nextPageKey
                      (items ++ xs)%list w
                end
            end
        end
    end
  else Some (Return items, w).

(** [paginatedCall(path, item, params?, headers = {})] *)
Definition paginatedCall (fuel : nat) (path item : string) (params : JsValue)
    (headers : option ref) (w : World)
    : option (Completion (list JsValue) * World) :=
  let '(l, w) := headersObject headers w in
  paginatedLoop fuel path item l params (VStr "firstCall") [] w.

End Client.


(** ** Pages and traces *)

(** Modelled from the spec: the interface [ErrorEnvelope] of
    [dynatrace-api/interfaces/dynatrace] is not among the sources.  The
    upstream error body is [{ error: { code, message, constraintViolations } }]. *)
Definition errorDetail (code : Z) (message : string) (violations : list JsValue)
    : JsValue :=
  VObj [("code", VNum code); ("message", VStr message);
        ("constraintViolations", VArr violations)].

Definition errorEnvelope (code : Z) (message : string) (violations : list JsValue)
    : JsValue :=
  VObj [("error", errorDetail code message violations)].


(** A response that [paginatedCall] takes as a page: the status is below
    400, the body is an object, and the property named [item], when the
    body has one, own or inherited, can be spread. *)
Definition isPage (item : string) (res : AxiosResponse) : bool :=
  bool_decide (status res < 400)%Z &&
  match res_data res with
  | VObj _ => match pushed item (res_data res) with inr _ => true | inl _ => false end
  | _ => false
  end.

(** The cursor of a page: [response.nextPageKey]. *)
Definition pageCursor (res : AxiosResponse) : JsValue :=
  match getProp (res_data res) "nextPageKey" with
  | inr v => v
  | inl _ => VUndefined
  end.

(** The items of a page under the field [item]. *)
Definition pageItems (item : string) (res : AxiosResponse) : list JsValue :=
  match pushed item (res_data res) with
  | inr xs => xs
  | inl _ => []
  end.

(** The query parameters of the next request, from the parameters of the
    previous one and the cursor in hand. *)
Definition nextParams (params nextPageKey : JsValue) : JsValue :=
  if negb (isStr nextPageKey "firstCall")
  then VObj [("nextPageKey", nextPageKey)] else params.

(** The query parameters of the successive requests of a paginated call
    that starts with [params] and the cursor [nextPageKey], when the pages
    return the cursors [cursors]. *)
Fixpoint requestParams (params nextPageKey : JsValue) (cursors : list JsValue)
    : list JsValue :=
  match cursors with
  | [] => []
  | c :: cs =>
      nextParams params nextPageKey
      :: requestParams (nextParams params nextPageKey) c cs
  end.

(** The loop variables [(params, nextPageKey)] after those pages. *)
Fixpoint afterPages (params nextPageKey : JsValue) (cursors : list JsValue)
    : JsValue * JsValue :=
  match cursors with
  | [] => (params, nextPageKey)
  | c :: cs => afterPages (nextParams params nextPageKey) c cs
  end.

(** The request [paginatedCall] sends for one page, from the content [h] of
    the headers object and the query parameters. *)
Definition pageRequest (this : HttpClient) (path : string) (h : gmap string string)
    (params : JsValue) : AxiosRequestConfig :=
  buildRequest this path params "GET" h VUndefined None None.

(** The [i]-th request after those of [w] is answered with the [i]-th
    response of [answers]. *)
Definition serves (axios_request : Transport) (w : World)
    (answers : list AxiosResponse) : Prop :=
  ∀ i res log cfg,
    answers !! i = Some res →
    length log = length (sent w) + i →
    axios_request log cfg = Resolved res.

(** ** Sample data *)

Module Sample.

Definition engine : Engine :=
  {| JSON_stringify := fun _ _ => "{...}";
     faultMessage := fun _ => "Cannot read properties of undefined" |}.

Definition client : HttpClient :=
  {| baseUrl := "https://abc.live.dynatrace.com"; apiToken := "dt0c01.TOKEN" |}.

Definition emptyWorld : World := {| objects := ∅; sent := [] |}.

(** A transport that replays a script, one answer per request. *)
Definition replay (script : list Settled) : Transport :=
  fun log _ => nth (length log) script (Rejected (ErrorObject [] "script exhausted" VUndefined)).

Definition always (s : Settled) : Transport := fun _ _ => s.

Definition pageOf (xs : list JsValue) (k : string) : AxiosResponse :=
  {| status := 200; res_data := VObj [("items", VArr xs); ("nextPageKey", VStr k)] |}.

Definition filters : JsValue := VObj [("entitySelector", VStr "type(HOST)")].

Definition unauthorized : AxiosResponse :=
  {| status := 401;
     res_data := errorEnvelope 401 "Token Authentication failed" [] |}.


Definition timedOut : Thrown :=
  ErrorObject ["config"; "code"; "request"] "timeout of 1000ms exceeded" VUndefined.


(** A world in which the caller holds one headers object, at reference 0. *)
Definition callerWorld (h : gmap string string) : World :=
  {| objects := {[0 := h]}; sent := [] |}.

Definition upload : Upload :=
  {| file := [Byte.x50; Byte.x4b; Byte.x03; Byte.x04]; name := "extension.zip" |}.

End Sample.

(** ** More on the client *)

(** [undefined] and [null], on which a property read is a [TypeError]. *)
Definition nullish (v : JsValue) : bool :=
  match v with
  | VUndefined | VNull => true
  | _ => false
  end.


(** The headers with which a request without file attachment leaves, from
    the content [h] of the headers object. *)
Definition jsonHeaders (this : HttpClient) (h : gmap string string)
    : gmap string string :=
  <["Authorization" := "Api-Token " +:+ apiToken this]>
    (if bool_decide ("Content-Type" ∈ dom h) then h
     else <["Content-type" := "application/json"]> h).

(** The first fault that the body of a page provokes in the loop of
    [paginatedCall]: the read of [nextPageKey], then [item in response] and
    the spread of [response[item]]. *)
Definition pageFault (item : string) (response : JsValue) : option Fault :=
  match getProp response "nextPageKey" with
  | inl f => Some f
  | inr _ =>
      match pushed item response with
      | inl f => Some f
      | inr _ => None
      end
  end.

(** ** The service for v1 extensions *)

(** [signal?: AbortSignal]: a cancellation signal, known by its identity. *)
Definition AbortSignal : Type := nat.

(** Modelled from the spec: the services of [configuration_v1/extensions.ts]
    call [httpClient.makeRequest] with one options object, a form of the
    function that is not among the sources.  The object is the spec's
    Endpoint Request with the fields these calls set: the path, the query
    parameters, the cancellation handle and the response decoding. *)
Record RequestOptions : Type :=
  { opt_path : string;
    opt_params : JsValue;
    opt_signal : option AbortSignal;
    opt_responseType : option string }.

(** The client as the service sees it: the outcome of a call may depend on
    the calls made before it. *)
Definition Client : Type := list RequestOptions → RequestOptions → Completion JsValue.

(** [private readonly endpoint = "/api/config/v1/extensions"] *)
Definition v1_endpoint : string := "/api/config/v1/extensions".

(** What [extensions.push(...res.extensions)] appends. *)
Definition v1Extensions (res : JsValue) : Fault + list JsValue :=
  match getProp res "extensions" with
  | inl f => inl f
  | inr v => spread v
  end.

Section ExtensionsServiceV1.

Variable engine : Engine.
Variable httpClient : Client.

(** The [do ... while (nextPageKey)] loop of [getExtensions], over the calls
    made so far; [None] when the bound on the iterations is reached with a
    cursor pending. *)
Fixpoint getExtensionsLoop (fuel : nat) (signal : option AbortSignal)
    (extensions : list JsValue) (nextPageKey : JsValue)
    (calls : list RequestOptions)
    : option (Completion (list JsValue) * list RequestOptions) :=
  match fuel with
  | O => None
  | S fuel =>
      let options :=
        {| opt_path := v1_endpoint;
           opt_params := VObj [("nextPageKey", nextPageKey)];
           opt_signal := signal;
           opt_responseType := None |} in
      match httpClient calls options with
      | Throw e => Some (Throw e, calls ++ [options])
      | Return res =>
          match v1Extensions res with
          | inl f => Some (Throw (typeError engine f), calls ++ [options])
          | inr xs =>
              match getProp res "nextPageKey" with
              | inl f => Some (Throw (typeError engine f), calls ++ [options])
              | inr nextPageKey =>
                  if truthy nextPageKey
                  then getExtensionsLoop fuel signal (extensions ++ xs) nextPageKey
                         (calls ++ [options])
                  else Some (Return (extensions ++ xs), calls ++ [options])
              end
          end
      end
  end.

(** [getExtensions(signal?)] *)
Definition getExtensions (fuel : nat) (signal : option AbortSignal)
    (calls : list RequestOptions)
    : option (Completion (list JsValue) * list RequestOptions) :=
  getExtensionsLoop fuel signal [] VUndefined calls.

(** [getExtensionBinary(extensionId, signal?)] *)
Definition getExtensionBinary (extensionId : string) (signal : option AbortSignal)
    (calls : list RequestOptions) : Completion JsValue * list RequestOptions :=
  let options :=
    {| opt_path := v1_endpoint +:+ "/" +:+ extensionId +:+ "/binary";
       opt_params := VUndefined;
       opt_signal := signal;
       opt_responseType := Some "arraybuffer" |} in
  (httpClient calls options, calls ++ [options]).

End ExtensionsServiceV1.

(** The [i]-th call after [calls] is answered with the [i]-th body. *)
Definition answers (httpClient : Client) (calls : list RequestOptions)
    (bodies : list JsValue) : Prop :=
  ∀ i res log options,
    bodies !! i = Some res →
    length log = length calls + i →
    httpClient log options = Return res.

(** A body that [getExtensions] takes as a page. *)
Definition isV1Page (res : JsValue) : bool :=
  match v1Extensions res with inr _ => true | inl _ => false end.

Definition v1Items (res : JsValue) : list JsValue :=
  match v1Extensions res with inr xs => xs | inl _ => [] end.

Definition v1Cursor (res : JsValue) : JsValue :=
  match getProp res "nextPageKey" with inr k => k | inl _ => VUndefined end.

(** The options of a call of [getExtensions] that carries the cursor [k]. *)
Definition v1Options (signal : option AbortSignal) (k : JsValue) : RequestOptions :=
  {| opt_path := v1_endpoint;
     opt_params := VObj [("nextPageKey", k)];
     opt_signal := signal;
     opt_responseType := None |}.

(** ** More sample data *)

Module SampleV1.

(** A client that replays a script, one outcome per call. *)
Definition replay (script : list (Completion JsValue)) : Client :=
  fun calls _ =>
    nth (length calls) script (Throw (ErrorObject [] "script exhausted" VUndefined)).

Definition pageOf (xs : list JsValue) (k : string) : JsValue :=
  VObj [("extensions", VArr xs); ("nextPageKey", VStr k)].

Definition lastPageOf (xs : list JsValue) : JsValue :=
  VObj [("extensions", VArr xs)].

Definition notFound : Thrown :=
  ApiError "Request failed with status code 404"
    (errorDetail 404 "Not found" []).

(** What axios rejects with on a 502 of a proxy, whose body is text. *)
Definition badGateway : Thrown :=
  ErrorObject ["config"; "request"; "response"] "Request failed with status code 502"
    (VObj [("status", VNum 502); ("data", VStr "<html>Bad Gateway</html>")]).

(** A rejection that carries a response with [null] as data. *)
Definition emptyResponse : Thrown :=
  ErrorObject ["config"; "request"; "response"] "Request failed with status code 500"
    (VObj [("status", VNum 500); ("data", VNull)]).

End SampleV1.

(** ** Reading the extension manifest ([utils/extensionParsing]) *)

Module ExtensionParsing.

(** The manifest ([extension.yaml] as an object), with the fields that the
    functions below read.  Strings are sequences of 8-bit code units. *)
Record Attribute : Type := { a_key : string; a_displayName : string }.
Record Source : Type := { sourceType : string; condition : string }.
Record RequiredDimension : Type := { rd_key : string }.
Record Rule : Type :=
  { requiredDimensions : option (list RequiredDimension);
    sources : list Source;
    attributes : list Attribute }.
Record TopologyType : Type := { t_name : string; rules : list Rule }.
Record RelationshipStub : Type :=
  { fromType : string; toType : string; typeOfRelation : string }.
Record TopologyStub : Type :=
  { types : list TopologyType; relationships : list RelationshipStub }.
Record DimensionStub : Type := { d_key : string; d_value : string }.
Record MetricStub : Type := { m_key : string; m_value : string }.
Record Subgroup : Type :=
  { sg_dimensions : option (list DimensionStub); sg_metrics : list MetricStub }.
Record DatasourceGroup : Type :=
  { dimensions : option (list DimensionStub);
    metrics : option (list MetricStub);
    subgroups : option (list Subgroup) }.

(** A chart: the metric selectors of [graphChartConfig.metrics], and the
    one of [pieChartConfig.metric] and of [singleValueConfig.metric]. *)
Record ChartStub : Type :=
  { graphChartConfig : option (list string);
    pieChartConfig : option string;
    singleValueConfig : option string }.
Record ChartsCardStub : Type := { cc_key : string; charts : list ChartStub }.
Record ScreenStub : Type :=
  { entityType : string; chartsCards : option (list ChartsCardStub) }.
Record ExtensionStub : Type :=
  { snmp : option (list DatasourceGroup);
    wmi : option (list DatasourceGroup);
    prometheus : option (list DatasourceGroup);
    sql : option (list DatasourceGroup);
    topology : TopologyStub;
    screens : option (list ScreenStub) }.

(** The direction of a relationship: ["to" | "from"]. *)
Inductive Direction : Type := To | From.

(** [s.split(sep)] for a separator of one character: the pieces between
    the occurrences of [sep], of which there is always at least one. *)
Fixpoint split (sep : Ascii.ascii) (s : string) : list string :=
  match s with
  | EmptyString => [EmptyString]
  | String c rest =>
      if Ascii.eqb c sep then EmptyString :: split sep rest
      else match split sep rest with
           | [] => [String c EmptyString]
           | piece :: pieces => String c piece :: pieces
           end
  end.

(** [xs.includes(x)] *)
Definition includes (xs : list string) (x : string) : bool :=
  bool_decide (x ∈ xs).

(** [s.startsWith(p)] *)
Definition startsWith (s p : string) : bool := String.prefix p s.

(** [xs[i].f] on a list: a [TypeError] when the index is out of range. *)
Definition at_index {A : Type} (field : string) (xs : list A) (i : nat) : Fault + A :=
  match xs !! i with
  | Some x => inr x
  | None => inl (CannotRead field VUndefined)
  end.

(** The matcher and the value of a condition pattern such as
    [$prefix(custom.metric)]: [pattern.split("(")[0]] and
    [pattern.split("(")[1].split(")")[0]]. *)
Definition parsePattern (pattern : string) : Fault + (string * string) :=
  let matcher := hd EmptyString (split "("%char pattern) in
  match split "("%char pattern !! 1 with
  | None => inl (CannotRead "split" VUndefined)
  | Some rest => inr (matcher, hd EmptyString (split ")"%char rest))
  end.

(** The [switch (matcher)] of the two functions that match metric keys. *)
Definition matchesKey (matcher value key : string) : bool :=
  if String.eqb matcher "$eq" then String.eqb key value
  else if String.eqb matcher "$prefix" then startsWith key value
  else false.

Section Functions.

(** [String.prototype.toLowerCase] and [toUpperCase], as the engine has
    them. *)
Variable toLowerCase : string → string.
Variable toUpperCase : string → string.

Definition getAttributesKeysFromTopology (entityType : string)
    (extension : ExtensionStub) : list string :=
  ty ← filter (λ ty, toLowerCase (t_name ty) = entityType) (types (topology extension));
  rule ← rules ty;
  attribute ← attributes rule;
  if negb (String.eqb (a_key attribute) "") then [a_key attribute] else [].

Definition getAttributesFromTopology (entityType : string)
    (extension : ExtensionStub) (excludeKeys : option (list string))
    : list Attribute :=
  ty ← filter (λ ty, toLowerCase (t_name ty) = entityType) (types (topology extension));
  rule ← rules ty;
  property ← filter (λ property,
                       match excludeKeys with
                       | Some keys => includes keys (a_key property)
                       | None => true
                       end = true) (attributes rule);
  [{| a_key := a_key property; a_displayName := a_displayName property |}].

(** The metric key of a selector: [metricSelector.split(":")[0]]. *)
Definition selectorKey (metricSelector : string) : string :=
  hd EmptyString (split ":"%char metricSelector).

Definition getMetricKeysFromChartCard (screenIdx cardIdx : nat)
    (extension : ExtensionStub) : Fault + list string :=
  match screens extension with
  | None => inl (CannotRead (pretty screenIdx) VUndefined)
  | Some screens =>
      match at_index "chartsCards" screens screenIdx with
      | inl f => inl f
      | inr screen =>
          match chartsCards screen with
          | None => inl (CannotRead (pretty cardIdx) VUndefined)
          | Some cards =>
              match at_index "charts" cards cardIdx with
              | inl f => inl f
              | inr card =>
                  inr (c ← charts card;
                       (match graphChartConfig c with
                        | Some ms => selectorKey <$> ms
                        | None => []
                        end)
                       ++ (match pieChartConfig c with
                           | Some ms => [selectorKey ms]
                           | None => []
                           end)
                       ++ (match singleValueConfig c with
                           | Some ms => [selectorKey ms]
                           | None => []
                           end))
              end
          end
      end
  end.

Definition getExtensionDatasource (extension : ExtensionStub) : list DatasourceGroup :=
  match snmp extension with
  | Some groups => groups
  | None =>
      match wmi extension with
      | Some groups => groups
      | None =>
          match sql extension with
          | Some groups => groups
          | None =>
              match prometheus extension with
              | Some groups => groups
              | None => []
              end
          end
      end
  end.

Definition getEntityMetricPatterns (typeIdx : nat) (extension : ExtensionStub)
    : Fault + list string :=
  match at_index "rules" (types (topology extension)) typeIdx with
  | inl f => inl f
  | inr ty =>
      inr (rule ← rules ty;
           source ← sources rule;
           if String.eqb (sourceType source) "Metrics" then [condition source] else [])
  end.

(** [if (!metrics.includes(metric.key)) { metrics.push(metric.key); }] *)
Definition pushKey (found : list string) (metric : MetricStub) : list string :=
  if includes found (m_key metric) then found else found ++ [m_key metric].

Definition getAllMetricKeysFromDataSource (extension : ExtensionStub) : list string :=
  foldl (λ found group,
           let found :=
             match metrics group with
             | Some ms => foldl pushKey found ms
             | None => found
             end in
           match subgroups group with
           | Some sgs => foldl (λ found sg, foldl pushKey found (sg_metrics sg)) found sgs
           | None => found
           end)
    [] (getExtensionDatasource extension).

(** One turn of [patterns.forEach] in [getEntityMetrics]. *)
Definition pushMatching (allMetrics : list string) (matchingMetrics : Fault + list string)
    (pattern : string) : Fault + list string :=
  match matchingMetrics with
  | inl f => inl f
  | inr matching =>
      match parsePattern pattern with
      | inl f => inl f
      | inr (matcher, value) =>
          inr (matching
               ++ filter (λ metric, matchesKey matcher value metric
                                    && negb (includes matching metric) = true)
                    allMetrics)
      end
  end.

(** [getEntityMetrics(typeIdx, extension, excludeKeys = [])] *)
Definition getEntityMetrics (typeIdx : nat) (extension : ExtensionStub)
    (excludeKeys : list string) : Fault + list string :=
  let allMetrics := getAllMetricKeysFromDataSource extension in
  match getEntityMetricPatterns typeIdx extension with
  | inl f => inl f
  | inr patterns =>
      match foldl (pushMatching allMetrics) (inr []) patterns with
      | inl f => inl f
      | inr matching =>
          inr (filter (λ metric, includes excludeKeys metric = false) matching)
      end
  end.

(** [dimensions.push(...ds.filter(d => !dimensions.includes(d.key)).map(d => d.key))],
    when [ds] is there. *)
Definition pushDimensions (found : list string) (ds : option (list DimensionStub))
    : list string :=
  match ds with
  | Some ds => found ++ (d_key <$> filter (λ d, includes found (d_key d) = false) ds)
  | None => found
  end.

(** Whether some metric of the list matches. *)
Definition anyMatches (matcher pattern : string) (ms : list MetricStub) : bool :=
  bool_decide (0 < length (filter (λ m, matchesKey matcher pattern (m_key m) = true) ms)).

Definition getDimensionsFromMatchingMetrics (conditionPattern : string)
    (extension : ExtensionStub) : Fault + list string :=
  match parsePattern conditionPattern with
  | inl f => inl f
  | inr (matcher, pattern) =>
      inr (foldl (λ found group,
                    let found :=
                      match metrics group with
                      | Some ms =>
                          if anyMatches matcher pattern ms
                          then pushDimensions found (dimensions group) else found
                      | None => found
                      end in
                    match subgroups group with
                    | Some sgs =>
                        foldl (λ found sg,
                                 if anyMatches matcher pattern (sg_metrics sg)
                                 then pushDimensions
                                        (pushDimensions found (dimensions group))
                                        (sg_dimensions sg)
                                 else found)
                          found sgs
                    | None => found
                    end)
             [] (getExtensionDatasource extension))
  end.

Definition getRequiredDimensions (typeIdx ruleIdx : nat) (extension : ExtensionStub)
    : Fault + list string :=
  match at_index "rules" (types (topology extension)) typeIdx with
  | inl f => inl f
  | inr ty =>
      match at_index "requiredDimensions" (rules ty) ruleIdx with
      | inl f => inl f
      | inr rule =>
          match requiredDimensions rule with
          | None => inr []
          | Some ds => inr (rd_key <$> ds)
          end
      end
  end.

(** One piece after the first in [toCamelCase]:
    [chunk[0].toUpperCase() + chunk.substring(1, chunk.length)]. *)
Definition capitalize (chunk : string) : Fault + string :=
  match chunk with
  | EmptyString => inl (CannotRead "toUpperCase" VUndefined)
  | String c rest => inr (toUpperCase (String c EmptyString) +:+ rest)
  end.

(** The [for] loop of [toCamelCase] over the pieces after the first. *)
Fixpoint camelTail (newStr : string) (chunks : list string) : Fault + string :=
  match chunks with
  | [] => inr newStr
  | chunk :: chunks =>
      match capitalize chunk with
      | inl f => inl f
      | inr piece => camelTail (newStr +:+ piece) chunks
      end
  end.

Definition toCamelCase (text : string) : Fault + string :=
  match split "_"%char (toLowerCase text) with
  | [] => inr EmptyString
  | chunk :: chunks => camelTail (EmptyString +:+ chunk) chunks
  end.

(** [Array.prototype.map] with a function that can throw. *)
Fixpoint mapM {A B : Type} (f : A → Fault + B) (xs : list A) : Fault + list B :=
  match xs with
  | [] => inr []
  | x :: xs =>
      match f x with
      | inl e => inl e
      | inr y => match mapM f xs with inl e => inl e | inr ys => inr (y :: ys) end
      end
  end.

Definition getRelationships (entity : string) (direction : Direction)
    (extension : ExtensionStub) : Fault + list string :=
  mapM (λ rel, toCamelCase (typeOfRelation rel))
    (filter (λ rel, match direction with
                    | To => String.eqb (toType rel) entity
                    | From => String.eqb (fromType rel) entity
                    end = true)
       (relationships (topology extension))).

End Functions.

(** The metric keys of a group: those of its [metrics] and of the
    [metrics] of its [subgroups]. *)
Definition groupHasKey (group : DatasourceGroup) (k : string) : Prop :=
  (∃ ms m, metrics group = Some ms ∧ m ∈ ms ∧ m_key m = k) ∨
  (∃ sgs sg m, subgroups group = Some sgs ∧ sg ∈ sgs ∧ m ∈ sg_metrics sg ∧ m_key m = k).

(** A metric key matches a condition pattern that can be parsed. *)
Definition patternMatches (pattern key : string) : Prop :=
  ∃ matcher value,
    parsePattern pattern = inr (matcher, value) ∧
    matchesKey matcher value key = true.

(** The keys of a list of dimensions, when there is one, are distinct. *)
Definition distinctKeys (ds : option (list DimensionStub)) : Prop :=
  ∀ l, ds = Some l → NoDup (d_key <$> l).

End ExtensionParsing.

(** ** A sample manifest *)

Module SampleManifest.
Import ExtensionParsing.

(** The case mappings on the letters A to Z and a to z. *)
Definition lowerChar (c : Ascii.ascii) : Ascii.ascii :=
  let n := nat_of_ascii c in
  if (65 <=? n)%nat && (n <=? 90)%nat then ascii_of_nat (n + 32) else c.

Definition upperChar (c : Ascii.ascii) : Ascii.ascii :=
  let n := nat_of_ascii c in
  if (97 <=? n)%nat && (n <=? 122)%nat then ascii_of_nat (n - 32) else c.

Fixpoint mapChars (f : Ascii.ascii → Ascii.ascii) (s : string) : string :=
  match s with
  | EmptyString => EmptyString
  | String c rest => String (f c) (mapChars f rest)
  end.

Definition lower : string → string := mapChars lowerChar.
Definition upper : string → string := mapChars upperChar.

Definition hostGroup : DatasourceGroup :=
  {| dimensions := Some [{| d_key := "host"; d_value := "label:instance" |}];
     metrics := Some [{| m_key := "custom.cpu.usage"; m_value := "metric:cpu" |};
                      {| m_key := "custom.mem.usage"; m_value := "metric:mem" |}];
     subgroups :=
       Some [{| sg_dimensions := Some [{| d_key := "disk"; d_value := "label:disk" |};
                                       {| d_key := "host"; d_value := "label:instance" |}];
                sg_metrics := [{| m_key := "custom.disk.free"; m_value := "metric:free" |};
                               {| m_key := "custom.cpu.usage"; m_value := "metric:cpu" |}] |}] |}.

Definition hostType (conditions : list string) : TopologyType :=
  {| t_name := "custom:Host";
     rules :=
       [{| requiredDimensions := Some [{| rd_key := "host" |}];
           sources := ((λ c, {| sourceType := "Metrics"; condition := c |}) <$> conditions)
                      ++ [{| sourceType := "Logs"; condition := "$eq(ignored)" |}];
           attributes := [{| a_key := "ip"; a_displayName := "IP address" |};
                          {| a_key := ""; a_displayName := "Unnamed" |};
                          {| a_key := "os"; a_displayName := "Operating system" |}] |}] |}.

Definition card : ChartsCardStub :=
  {| cc_key := "usage";
     charts :=
       [{| graphChartConfig :=
             Some ["custom.cpu.usage:splitBy():avg"; "custom.mem.usage"];
           pieChartConfig := None;
           singleValueConfig := Some "custom.disk.free:max" |}] |}.

(** A manifest with the prometheus datasource, a topology type with the
    given Metrics conditions, and a screen with one chart card. *)
Definition manifest (conditions : list string) : ExtensionStub :=
  {| snmp := None; wmi := None; sql := None;
     prometheus := Some [hostGroup];
     topology :=
       {| types := [hostType conditions];
          relationships :=
            [{| fromType := "custom:host"; toType := "custom:disk";
                typeOfRelation := "RUNS_ON" |}] |};
     screens := Some [{| entityType := "custom:host"; chartsCards := Some [card] |}] |}.

End SampleManifest.

(** * Properties *)

Section RequestExecutor.

Variable engine : Engine.
Variable this : HttpClient.
Variable axios_request : Transport.

#[local] Abbreviation makeRequest := (makeRequest engine this axios_request).

(** ** Unfolding lemmas *)

Lemma headersObject_sent headers w :
  sent (snd (headersObject headers w)) = sent w.
Proof. destruct headers; reflexivity. Qed.

Lemma makeRequest_result path params method headers queryParams files responseType w :
  let cfg := issued this path params method headers queryParams files responseType w in
  fst (makeRequest path params method headers queryParams files responseType w)
  = settle engine this (req_url cfg) (axios_request (sent w) cfg).
Proof. destruct headers; reflexivity. Qed.

Lemma makeRequest_sent path params method headers queryParams files responseType w :
  sent (snd (makeRequest path params method headers queryParams files responseType w))
  = (sent w ++ [issued this path params method headers queryParams files responseType w])%list.
Proof. destruct headers; reflexivity. Qed.

Lemma makeRequest_object path params method l queryParams files responseType w :
  objects (snd (makeRequest path params method (Some l) queryParams files responseType w)) !! l
  = Some (req_headers
            (issued this path params method (Some l) queryParams files responseType w)).
Proof. cbn. apply lookup_insert_eq. Qed.

Lemma issued_url path params method headers queryParams files responseType w :
  req_url (issued this path params method headers queryParams files responseType w)
  = baseUrl this +:+ path.
Proof.
  unfold issued, buildRequest. destruct headers; cbn;
    destruct (bool_decide _ || bool_decide _), files; reflexivity.
Qed.

(** The headers of the request, from the content [h] of the headers object. *)
Lemma buildRequest_headers path params method h queryParams files responseType :
  req_headers (buildRequest this path params method h queryParams files responseType)
  = <["Authorization" := "Api-Token " +:+ apiToken this]>
      (let h1 := if bool_decide ("Content-Type" ∈ dom h) then h
                 else <["Content-type" := "application/json"]> h in
       match files with
       | Some _ => <["Content-type" := "multipart/form-data"]> h1
       | None => h1
       end).
Proof.
  unfold buildRequest.
  destruct (bool_decide _ || bool_decide _), files; reflexivity.
Qed.

Lemma buildRequest_data path params method h queryParams f responseType :
  req_data (buildRequest this path params method h queryParams (Some f) responseType)
  = DataForm [{| part_field := "file"; part_bytes := file f; part_filename := name f |}].
Proof.
  unfold buildRequest. destruct (bool_decide _ || bool_decide _); reflexivity.
Qed.

Lemma content_type_key_insert (k v : string) (h : gmap string string) :
  k ≠ "Content-Type" →
  "Content-Type" ∈ dom (<[k := v]> h) ↔ "Content-Type" ∈ dom h.
Proof. intros Hk. by rewrite !elem_of_dom, lookup_insert_ne. Qed.

(** Apart from its headers, the request does not depend on the headers
    object. *)
Lemma buildRequest_same_headers path params method h h' queryParams files responseType :
  req_headers (buildRequest this path params method h queryParams files responseType)
  = req_headers (buildRequest this path params method h' queryParams files responseType) →
  buildRequest this path params method h queryParams files responseType
  = buildRequest this path params method h' queryParams files responseType.
Proof.
  unfold buildRequest.
  destruct (bool_decide _ || bool_decide _), files;
    intros H; cbn [req_headers] in H; by rewrite H.
Qed.

(** ** Error normalisation *)

(** A rejection that carries a response is turned into an error whose
    detail is the [error] field of the response body. *)
Lemma onRejected_response url keys message response d :
  "response" ∈ keys →
  getProp response "data" = inr d →
  onRejected engine this url (ErrorObject keys message response)
  = match getProp d "error" with
    | inl f => typeError engine f
    | inr errorParams => ApiError message errorParams
    end.
Proof.
  intros Hk Hd. unfold onRejected. cbn [thrownKeys thrownResponse thrownMessage].
  rewrite bool_decide_eq_true_2 by done. by rewrite Hd.
Qed.

(** What the [then] handler throws is caught by the [catch] handler of the
    same chain, which finds neither [response] nor [request] among its
    keys. *)
Lemma settle_resolved_error_status url res props :
  (400 ≤ status res)%Z →
  res_data res = VObj props →
  let thrown :=
    "Error making request to " +:+ url +:+ ": " +:+ pretty (status res) +:+
    ". Response: " +:+ JSON_stringify engine (res_data res) 2 in
  let message := "Error making request to " +:+ url +:+ ": " +:+ thrown +:+ "." in
  settle engine this url (Resolved res) = Throw (ApiError message (errorParamsOf message)).
Proof.
  intros Hs Hd. cbn. unfold onFulfilled.
  rewrite bool_decide_eq_true_2 by done. rewrite Hd. reflexivity.
Qed.

Lemma settle_resolved_ok url res :
  (status res < 400)%Z → settle engine this url (Resolved res) = Return (res_data res).
Proof.
  intros Hs. cbn. unfold onFulfilled.
  rewrite bool_decide_eq_false_2 by lia. reflexivity.
Qed.



(** The [then] handler also throws on a status of 400 or more.  Should the
    promise of [axios.request] ever be fulfilled with such a status and an
    object as body, the error thrown there is caught by the [catch] handler
    chained after it and replaced: [makeRequest] fails with code 0, no
    constraint violation and a synthesized message, whatever the envelope
    holds. *)
Lemma makeRequest_fulfilled_error_status
    path params method headers queryParams files responseType w res props :
  axios_request (sent w)
    (issued this path params method headers queryParams files responseType w)
  = Resolved res →
  (400 ≤ status res)%Z →
  res_data res = VObj props →
  ∃ message,
    fst (makeRequest path params method headers queryParams files responseType w)
    = Throw (ApiError message
               (VObj [("code", VNum 0); ("constraintViolations", VArr []);
                      ("message", VStr message)])).
Proof.
  intros Hreq Hs Hd. rewrite makeRequest_result. cbv zeta. rewrite Hreq.
  rewrite (settle_resolved_error_status _ _ _ Hs Hd). eauto.
Qed.

(** C3: a request that was sent and got no response (the error has the key
    [request] and not the key [response]) fails with the message
    "No response from server <baseUrl>", code 0, the message of the
    transport error as detail message and no constraint violation. *)
Theorem makeRequest_no_response
    path params method headers queryParams files responseType w err :
  axios_request (sent w)
    (issued this path params method headers queryParams files responseType w)
  = Rejected err →
  "response" ∉ thrownKeys err →
  "request" ∈ thrownKeys err →
  fst (makeRequest path params method headers queryParams files responseType w)
  = Throw (ApiError ("No response from server " +:+ baseUrl this)
             (VObj [("code", VNum 0); ("constraintViolations", VArr []);
                    ("message", VStr (thrownMessage err))])).
Proof.
  intros Hreq Hno Hyes. rewrite makeRequest_result. cbv zeta. rewrite Hreq.
  cbn [settle]. unfold onRejected.
  rewrite bool_decide_eq_false_2 by done.
  rewrite bool_decide_eq_true_2 by done. reflexivity.
Qed.


(** ** Headers and body *)

(** C5: with a file attachment, the request carries the content type
    multipart/form-data and a form of exactly one part, the field "file"
    with the bytes and the filename of the attachment, whatever the
    parameters, the method and the query parameters of the call. *)
Theorem makeRequest_file_upload
    path params method headers queryParams f responseType w :
  ∃ cfg,
    sent (snd (makeRequest path params method headers queryParams (Some f)
                 responseType w))
    = (sent w ++ [cfg])%list ∧
    req_headers cfg !! "Content-type" = Some "multipart/form-data" ∧
    req_data cfg
    = DataForm [{| part_field := "file"; part_bytes := file f;
                   part_filename := name f |}].
Proof.
  eexists. split; [apply makeRequest_sent|]. unfold issued.
  destruct (headersObject headers w) as [l w1]. split.
  - rewrite buildRequest_headers. cbv zeta.
    rewrite lookup_insert_ne by done. apply lookup_insert_eq.
  - apply buildRequest_data.
Qed.

(** C6, on the code: the test is on the key "Content-Type" and the
    assignment on the key "Content-type".  Without a file attachment, a
    headers object that lacks the key "Content-Type" leaves with
    "Content-type" set to application/json, whatever it held under
    "Content-type" before. *)
Theorem makeRequest_content_type_overwritten
    path params method l queryParams responseType w :
  "Content-Type" ∉ dom (readObject l w) →
  ∃ cfg,
    sent (snd (makeRequest path params method (Some l) queryParams None
                 responseType w))
    = (sent w ++ [cfg])%list ∧
    req_headers cfg !! "Content-type" = Some "application/json".
Proof.
  intros Hno. eexists. split; [apply makeRequest_sent|].
  cbn [issued headersObject]. rewrite buildRequest_headers. cbv zeta.
  rewrite bool_decide_eq_false_2 by done.
  rewrite lookup_insert_ne by done. apply lookup_insert_eq.
Qed.

(** X8: Without a file attachment, a headers object that has the key
    "Content-Type" goes out with that entry as the caller set it, and
    nothing but [Authorization] is written. *)
Lemma makeRequest_content_type_kept
    path params method l queryParams responseType w :
  "Content-Type" ∈ dom (readObject l w) →
  req_headers (issued this path params method (Some l) queryParams None responseType w)
  = <["Authorization" := "Api-Token " +:+ apiToken this]> (readObject l w).
Proof.
  intros Hin. cbn [issued headersObject]. rewrite buildRequest_headers. cbv zeta.
  by rewrite bool_decide_eq_true_2.
Qed.

(** X7: Without a file attachment and with no headers argument, the content
    type is application/json. *)
Lemma makeRequest_content_type_default
    path params method queryParams responseType w :
  req_headers (issued this path params method None queryParams None responseType w)
  !! "Content-type" = Some "application/json".
Proof.
  cbn [issued headersObject]. rewrite buildRequest_headers. cbv zeta.
  assert (readObject (newRef w) (writeObject (newRef w) ∅ w) = ∅) as ->.
  { unfold readObject, writeObject. cbn. by rewrite lookup_insert_eq. }
  rewrite bool_decide_eq_false_2 by set_solver.
  rewrite lookup_insert_ne by done. apply lookup_insert_eq.
Qed.

(** C10: every call, with a headers object or without one, sends one
    request, and that request has [Authorization] equal to
    "Api-Token <token>", whatever the headers object held under that key;
    when the caller passed a headers object, that object holds after the
    call the headers that were sent, this [Authorization] included. *)
Theorem makeRequest_authorization
    path params method headers queryParams files responseType w :
  let w' := snd (makeRequest path params method headers queryParams files
                   responseType w) in
  ∃ cfg,
    sent w' = (sent w ++ [cfg])%list ∧
    req_headers cfg !! "Authorization" = Some ("Api-Token " +:+ apiToken this) ∧
    ∀ l, headers = Some l → objects w' !! l = Some (req_headers cfg).
Proof.
  cbv zeta. eexists. split; [apply makeRequest_sent|]. split.
  - unfold issued. destruct (headersObject headers w) as [l w1].
    rewrite buildRequest_headers. apply lookup_insert_eq.
  - intros l ->. apply makeRequest_object.
Qed.

End RequestExecutor.

Section Paginator.

Variable engine : Engine.
Variable this : HttpClient.
Variable axios_request : Transport.
Variables path item : string.
Variable l : ref.

#[local] Abbreviation loop := (paginatedLoop engine this axios_request).
#[local] Abbreviation get params w :=
  (makeRequest engine this axios_request path params (Some "GET") (Some l)
     VUndefined None None w).
#[local] Abbreviation pageReq := (pageRequest this path).

Lemma paginatedLoop_done fuel params nextPageKey items w :
  truthy nextPageKey = false →
  loop fuel path item l params nextPageKey items w = Some (Return items, w).
Proof. intros H. destruct fuel; cbn; by rewrite H. Qed.

Lemma paginatedLoop_step fuel params nextPageKey items w :
  truthy nextPageKey = true →
  loop (S fuel) path item l params nextPageKey items w
  = match get (nextParams params nextPageKey) w with
    | (Throw e, w) => Some (Throw e, w)
    | (Return response, w) =>
        match getProp response "nextPageKey" with
        | inl f => Some (Throw (typeError engine f), w)
        | inr cursor =>
            match pushed item response with
            | inl f => Some (Throw (typeError engine f), w)
            | inr xs =>
                loop fuel path item l (nextParams params nextPageKey) cursor
                  (items ++ xs)%list w
            end
        end
    end.
Proof. intros H. cbn [paginatedLoop]. rewrite H. reflexivity. Qed.

Lemma get_world params w :
  get params w
  = (fst (get params w),
     record (pageReq (readObject l w) params)
       (writeObject l (req_headers (pageReq (readObject l w) params)) w)).
Proof. reflexivity. Qed.

(** Sending the headers object that a request has already written gives
    the same request again. *)
Lemma pageRequest_again h params params' :
  pageReq (req_headers (pageReq h params')) params = pageReq h params.
Proof.
  unfold pageRequest. apply buildRequest_same_headers.
  rewrite !buildRequest_headers. cbv zeta.
  destruct (decide ("Content-Type" ∈ dom h)) as [Hin|Hout].
  - rewrite (bool_decide_eq_true_2 _ Hin).
    rewrite bool_decide_eq_true_2 by (by apply content_type_key_insert).
    apply insert_insert_eq.
  - rewrite (bool_decide_eq_false_2 _ Hout).
    rewrite bool_decide_eq_false_2
      by (by rewrite !content_type_key_insert).
    rewrite (insert_insert_ne _ "Content-type" "Authorization") by done.
    by rewrite !insert_insert_eq.
Qed.

Lemma readObject_after h params w :
  readObject l (record (pageReq h params)
                  (writeObject l (req_headers (pageReq h params)) w))
  = req_headers (pageReq h params).
Proof. unfold readObject. cbn. by rewrite lookup_insert_eq. Qed.

(** One iteration on a page. *)
Lemma paginatedLoop_page fuel params nextPageKey items w res :
  truthy nextPageKey = true →
  axios_request (sent w) (pageReq (readObject l w) (nextParams params nextPageKey))
  = Resolved res →
  isPage item res = true →
  loop (S fuel) path item l params nextPageKey items w
  = loop fuel path item l (nextParams params nextPageKey) (pageCursor res)
      (items ++ pageItems item res)%list
      (snd (get (nextParams params nextPageKey) w)).
Proof.
  intros Ht Hreq Hpage. rewrite (paginatedLoop_step _ _ _ _ _ Ht).
  rewrite get_world. cbn [snd]. unfold pageRequest in *.
  rewrite makeRequest_result. cbv zeta. cbn [issued headersObject default id].
  rewrite Hreq. apply andb_true_iff in Hpage as [Hs Hbody].
  apply bool_decide_eq_true_1 in Hs.
  rewrite (settle_resolved_ok _ _ _ _ Hs).
  unfold pageCursor, pageItems.
  destruct (res_data res) as [| | | | | |props|]; try discriminate.
  cbn [getProp] in *.
  destruct (pushed item (VObj props)); [discriminate|reflexivity].
Qed.

(** One iteration on a failure. *)
Lemma paginatedLoop_failure fuel params nextPageKey items w e :
  truthy nextPageKey = true →
  fst (get (nextParams params nextPageKey) w) = Throw e →
  loop (S fuel) path item l params nextPageKey items w
  = Some (Throw e, snd (get (nextParams params nextPageKey) w)).
Proof.
  intros Ht Hfail. rewrite (paginatedLoop_step _ _ _ _ _ Ht).
  destruct (get _ w) as [c w']. cbn in Hfail. by subst c.
Qed.

(** ** The trace of query parameters *)

Lemma isStr_false v lit : v ≠ VStr lit → isStr v lit = false.
Proof.
  intros Hv. destruct v; try reflexivity. cbn.
  apply String.eqb_neq. congruence.
Qed.

Lemma nextParams_cursor params c :
  c ≠ VStr "firstCall" → nextParams params c = VObj [("nextPageKey", c)].
Proof. intros Hc. unfold nextParams. by rewrite isStr_false. Qed.

Lemma nextParams_firstCall params : nextParams params (VStr "firstCall") = params.
Proof. reflexivity. Qed.

Lemma requestParams_length params k cs :
  length (requestParams params k cs) = length cs.
Proof. revert params k. induction cs; intros; cbn; [done|by rewrite IHcs]. Qed.

(** With no cursor equal to the sentinel, every request after the first
    carries the cursor of the page before it and nothing else. *)
Lemma requestParams_cursors params k cs c :
  Forall (λ c, c ≠ VStr "firstCall") cs →
  requestParams params k (cs ++ [c])
  = nextParams params k :: ((λ c, VObj [("nextPageKey", c)]) <$> cs).
Proof.
  intros Hcs. revert params k.
  induction Hcs as [|c' cs Hc' _ IH]; intros params k; [reflexivity|].
  cbn. f_equal. rewrite IH. by rewrite nextParams_cursor.
Qed.

(** Each request is computed from the one before it and the cursor that
    came back. *)
Lemma requestParams_next params k cs i c q :
  cs !! i = Some c →
  requestParams params k cs !! i = Some q →
  S i < length cs →
  requestParams params k cs !! S i = Some (nextParams q c).
Proof.
  revert params k i. induction cs as [|c0 cs IH]; intros params k i Hc Hq Hlen;
    [done|].
  destruct i as [|i].
  - cbn in Hc, Hq. simplify_eq. destruct cs; [cbn in Hlen; lia|reflexivity].
  - cbn in Hc, Hq |- *. cbn in Hlen. apply (IH _ _ i); [done|done|lia].
Qed.

(** No request carries the sentinel as a cursor, unless the caller's own
    parameters do. *)
Lemma requestParams_no_sentinel (P : JsValue → Prop) params k cs :
  P params →
  (∀ c, c ≠ VStr "firstCall" → P (VObj [("nextPageKey", c)])) →
  Forall P (requestParams params k cs).
Proof.
  intros Hp Hc. revert params k Hp. induction cs as [|c cs IH]; intros params k Hp;
    [constructor|].
  assert (P (nextParams params k)) as Hn.
  { unfold nextParams. destruct (isStr k "firstCall") eqn:Hk; cbn; [done|].
    apply Hc. intros ->. discriminate. }
  cbn. constructor; [done|by apply IH].
Qed.

Lemma afterPages_truthy params k cs :
  truthy k = true →
  Forall (λ c, truthy c = true) cs →
  truthy (afterPages params k cs).2 = true.
Proof.
  intros Hk Hcs. revert params k Hk.
  induction Hcs as [|c cs Hc _ IH]; intros params k Hk; [done|]. cbn. by apply IH.
Qed.

(** ** Runs over a sequence of pages *)

Lemma serves_head w res answers cfg :
  serves axios_request w (res :: answers) →
  axios_request (sent w) cfg = Resolved res.
Proof. intros H. apply (H 0); [done|lia]. Qed.

Lemma serves_tail w w' res answers :
  serves axios_request w (res :: answers) →
  length (sent w') = S (length (sent w)) →
  serves axios_request w' answers.
Proof.
  intros H Hlen i r log cfg Hi Hlog. apply (H (S i)); [done|lia].
Qed.

(** The loop run over pages that all hand out a cursor: the items are
    appended page by page, one request is sent per page, and the loop goes
    on with the last cursor. *)
Lemma paginatedLoop_pages pages :
  ∀ params nextPageKey items w,
    truthy nextPageKey = true →
    Forall (λ r, isPage item r = true) pages →
    Forall (λ r, truthy (pageCursor r) = true) pages →
    serves axios_request w pages →
    ∃ w',
      (∀ n,
         loop (length pages + n) path item l params nextPageKey items w
         = loop n path item l
             (afterPages params nextPageKey (pageCursor <$> pages)).1
             (afterPages params nextPageKey (pageCursor <$> pages)).2
             (items ++ concat (pageItems item <$> pages))%list w') ∧
      sent w'
      = (sent w ++ (pageReq (readObject l w)
                      <$> requestParams params nextPageKey (pageCursor <$> pages)))%list ∧
      (∀ q, pageReq (readObject l w') q = pageReq (readObject l w) q).
Proof.
  induction pages as [|res pages IH];
    intros params nextPageKey items w Ht Hpages Hcursors Hserves.
  - exists w. cbn. rewrite !app_nil_r. done.
  - apply Forall_cons in Hpages as [Hres Hpages].
    apply Forall_cons in Hcursors as [Hc Hcursors].
    set (q0 := nextParams params nextPageKey).
    set (w1 := snd (get q0 w)).
    assert (sent w1 = (sent w ++ [pageReq (readObject l w) q0])%list) as Hsent1
      by reflexivity.
    assert (readObject l w1 = req_headers (pageReq (readObject l w) q0)) as Hobj1
      by apply readObject_after.
    destruct (IH q0 (pageCursor res) (items ++ pageItems item res)%list w1 Hc
                Hpages Hcursors) as (w' & Hrun & Hsent & Hreq).
    { apply (serves_tail w _ res); [done|]. rewrite Hsent1, length_app. cbn. lia. }
    exists w'. split; [|split].
    + intros n. cbn [length Nat.add].
      rewrite (paginatedLoop_page _ _ _ _ _ res Ht);
        [|by apply (serves_head _ _ pages)|done].
      fold q0 w1. rewrite Hrun. cbn [fmap list_fmap concat afterPages].
      by rewrite <- app_assoc.
    + rewrite Hsent, Hsent1, Hobj1. cbn [fmap list_fmap requestParams].
      fold q0. rewrite <- app_assoc. cbn [app]. do 2 f_equal.
      apply list_fmap_ext. intros _ q _. apply pageRequest_again.
    + intros q. rewrite Hreq, Hobj1. apply pageRequest_again.
Qed.

End Paginator.

Section PaginatedCall.

Variable engine : Engine.
Variable this : HttpClient.
Variable axios_request : Transport.
Variables path item : string.

Lemma requestParams_app params k cs cs' :
  requestParams params k (cs ++ cs')
  = (requestParams params k cs
     ++ requestParams (afterPages params k cs).1 (afterPages params k cs).2 cs')%list.
Proof.
  revert params k. induction cs as [|c cs IH]; intros params k; [reflexivity|].
  cbn. by rewrite IH.
Qed.

Lemma serves_same_log w w' answers :
  sent w' = sent w →
  serves axios_request w answers → serves axios_request w' answers.
Proof. intros Hs H i r log cfg Hi Hlog. apply (H i); [done|]. by rewrite <- Hs. Qed.

(** A complete run: every page but the last hands out a cursor, the last
    one does not.  The call returns the items of all pages in order, and
    has sent one request per page, with the query parameters given by
    [requestParams]. *)
Lemma paginatedCall_run pages last params headers w fuel :
  Forall (λ r, isPage item r = true) (pages ++ [last]) →
  Forall (λ r, truthy (pageCursor r) = true) pages →
  truthy (pageCursor last) = false →
  serves axios_request w (pages ++ [last]) →
  length pages < fuel →
  ∃ w' h,
    paginatedCall engine this axios_request fuel path item params headers w
    = Some (Return (concat (pageItems item <$> (pages ++ [last]))), w') ∧
    sent w'
    = (sent w ++ (pageRequest this path h
                    <$> requestParams params (VStr "firstCall")
                          (pageCursor <$> (pages ++ [last]))))%list.
Proof.
  intros Hpages Hcursors Hlast Hserves Hfuel.
  apply Forall_app in Hpages as [Hpages Hlastpage].
  apply Forall_inv in Hlastpage.
  unfold paginatedCall.
  pose proof (headersObject_sent headers w) as Hs0.
  destruct (headersObject headers w) as [l w1]. cbn [snd] in Hs0.
  assert (serves axios_request w1 (pages ++ [last])) as Hserves1
    by by apply (serves_same_log w).
  destruct (paginatedLoop_pages engine this axios_request path item l pages
              params (VStr "firstCall") [] w1 eq_refl Hpages Hcursors)
    as (w2 & Hrun & Hsent & Hreq).
  { intros i r log cfg Hi Hlog. apply (Hserves1 i); [|done].
    by apply lookup_app_l_Some. }
  set (cs := pageCursor <$> pages) in *.
  set (st := afterPages params (VStr "firstCall") cs) in *.
  assert (truthy st.2 = true) as Hst.
  { apply afterPages_truthy; [done|]. by apply Forall_fmap. }
  assert (length (sent w2) = length (sent w1) + length pages) as Hlen.
  { rewrite Hsent, length_app, length_fmap, requestParams_length.
    unfold cs. by rewrite length_fmap. }
  replace fuel with (length pages + S (fuel - S (length pages))) by lia.
  rewrite Hrun.
  rewrite (paginatedLoop_page engine this axios_request path item l _ _ _ _ _
             last Hst).
  2:{ apply (Hserves1 (length pages)); [|exact Hlen].
      by rewrite lookup_app_r, Nat.sub_diag. }
  2:{ exact Hlastpage. }
  rewrite paginatedLoop_done by done.
  eexists _, (readObject l w1). split.
  - rewrite fmap_app, concat_app. cbn. by rewrite app_nil_r.
  - cbn [snd makeRequest headersObject record sent].
    rewrite fmap_app, requestParams_app, fmap_app. fold cs st. cbn.
    rewrite Hsent, Hs0, <- app_assoc. do 2 f_equal.
    rewrite <- Hreq. reflexivity.
Qed.

Lemma pageRequest_params h q : req_params (pageRequest this path h q) = q.
Proof. reflexivity. Qed.

Lemma pageRequest_params_all h (qs : list JsValue) :
  req_params <$> (pageRequest this path h <$> qs) = qs.
Proof. induction qs as [|q qs IH]; cbn; [done|by rewrite IH]. Qed.

Lemma pageRequest_method h q : req_method (pageRequest this path h q) = "GET".
Proof. reflexivity. Qed.

Lemma pageRequest_url h q : req_url (pageRequest this path h q) = baseUrl this +:+ path.
Proof. reflexivity. Qed.

(** C2, as the code has it: when every page before the last hands out a
    non-empty cursor and the last page has none, the call ends (with any
    bound above the number of pages before the last), returns the items of
    the pages in page order and in the order within each page, and has sent
    exactly one GET request per page.  The first request has the caller's
    parameters.  The request after a page has the parameters
    [{nextPageKey: <cursor of that page>}] and nothing else, unless that
    cursor is the string "firstCall": then it has the parameters of the
    request before it. *)
Theorem paginatedCall_all_pages pages last params headers w fuel :
  Forall (λ r, isPage item r = true) (pages ++ [last]) →
  Forall (λ r, truthy (pageCursor r) = true) pages →
  truthy (pageCursor last) = false →
  serves axios_request w (pages ++ [last]) →
  length pages < fuel →
  ∃ w' reqs,
    paginatedCall engine this axios_request fuel path item params headers w
    = Some (Return (concat (pageItems item <$> (pages ++ [last]))), w') ∧
    sent w' = sent w ++ reqs ∧
    length reqs = length (pages ++ [last]) ∧
    Forall (λ r, req_method r = "GET") reqs ∧
    req_params <$> head reqs = Some params ∧
    ∀ i r, pages !! i = Some r →
      ∃ q q', reqs !! i = Some q ∧ reqs !! S i = Some q' ∧
        req_params q'
        = if isStr (pageCursor r) "firstCall" then req_params q
          else VObj [("nextPageKey", pageCursor r)].
Proof.
  intros Hpages Hcursors Hlast Hserves Hfuel.
  destruct (paginatedCall_run pages last params headers w fuel Hpages Hcursors
              Hlast Hserves Hfuel) as (w' & h & Hrun & Hsent).
  set (cs := pageCursor <$> (pages ++ [last])) in *.
  set (qs := requestParams params (VStr "firstCall") cs) in *.
  assert (length qs = S (length pages)) as Hqs.
  { unfold qs, cs. rewrite requestParams_length, length_fmap, length_app. cbn. lia. }
  eexists w', _. split; [exact Hrun|]. split; [exact Hsent|].
  split; [|split; [|split]].
  - rewrite length_fmap, Hqs, length_app. cbn. lia.
  - apply Forall_fmap, Forall_forall. by intros q _.
  - unfold qs, cs. by destruct pages.
  - intros i r Hi.
    assert (i < length pages) as Hlt by by eapply lookup_lt_Some.
    destruct (lookup_lt_is_Some_2 qs i) as [q Hq]; [lia|].
    assert (cs !! i = Some (pageCursor r)) as Hc.
    { unfold cs. by rewrite list_lookup_fmap, lookup_app_l, Hi. }
    assert (qs !! S i = Some (nextParams q (pageCursor r))) as Hnext.
    { apply requestParams_next; [exact Hc|exact Hq|].
      unfold cs. rewrite length_fmap, length_app. cbn. lia. }
    exists (pageRequest this path h q),
           (pageRequest this path h (nextParams q (pageCursor r))).
    rewrite !list_lookup_fmap, Hq, Hnext. split; [done|]. split; [done|].
    rewrite !pageRequest_params. unfold nextParams.
    by destruct (isStr (pageCursor r) "firstCall").
Qed.

(** C9: in a run over pages, when a page hands out the cursor "firstCall"
    the loop goes on, and the next request carries the query parameters of
    the request before it; no request carries [{nextPageKey: "firstCall"}],
    unless those are the caller's own parameters. *)
Theorem paginatedCall_firstCall_cursor pages last params headers w fuel :
  Forall (λ r, isPage item r = true) (pages ++ [last]) →
  Forall (λ r, truthy (pageCursor r) = true) pages →
  truthy (pageCursor last) = false →
  serves axios_request w (pages ++ [last]) →
  length pages < fuel →
  ∃ out w' reqs,
    paginatedCall engine this axios_request fuel path item params headers w
    = Some (Return out, w') ∧
    sent w' = sent w ++ reqs ∧
    length reqs = S (length pages) ∧
    (∀ i r, pages !! i = Some r → pageCursor r = VStr "firstCall" →
       ∃ q q', reqs !! i = Some q ∧ reqs !! S i = Some q' ∧
               req_params q' = req_params q) ∧
    Forall (λ q, req_params q = params ∨
                 ∃ c, req_params q = VObj [("nextPageKey", c)] ∧
                      c ≠ VStr "firstCall") reqs.
Proof.
  intros Hpages Hcursors Hlast Hserves Hfuel.
  destruct (paginatedCall_run pages last params headers w fuel Hpages Hcursors
              Hlast Hserves Hfuel) as (w' & h & Hrun & Hsent).
  set (cs := pageCursor <$> (pages ++ [last])) in *.
  set (qs := requestParams params (VStr "firstCall") cs) in *.
  assert (length cs = S (length pages)) as Hcs.
  { unfold cs. rewrite length_fmap, length_app. cbn. lia. }
  assert (length qs = S (length pages)) as Hqs.
  { unfold qs. by rewrite requestParams_length. }
  eexists _, w', _. split; [exact Hrun|]. split; [exact Hsent|].
  split; [by rewrite length_fmap|]. split.
  - intros i r Hi Hr.
    assert (i < length pages) as Hlt by by eapply lookup_lt_Some.
    destruct (lookup_lt_is_Some_2 qs i) as [q Hq]; [lia|].
    assert (cs !! i = Some (VStr "firstCall")) as Hc.
    { unfold cs. rewrite list_lookup_fmap, lookup_app_l, Hi by done. cbn. by rewrite Hr. }
    assert (qs !! S i = Some q) as Hnext.
    { change (qs !! S i = Some (nextParams q (VStr "firstCall"))).
      apply requestParams_next; [exact Hc|exact Hq|lia]. }
    exists (pageRequest this path h q), (pageRequest this path h q).
    by rewrite !list_lookup_fmap, Hq, Hnext.
  - apply Forall_fmap. unfold qs.
    apply (requestParams_no_sentinel
             (λ q, req_params (pageRequest this path h q) = params ∨
                   ∃ c, req_params (pageRequest this path h q)
                        = VObj [("nextPageKey", c)] ∧ c ≠ VStr "firstCall")).
    + by left.
    + intros c Hc. right. by exists c.
Qed.

(** C4: when the pages served so far all handed out a cursor and the next
    request fails with the error [e], the call fails with [e] and returns no
    items; no request follows the failed one. *)
Theorem paginatedCall_page_failure pages answer e params headers w fuel :
  Forall (λ r, isPage item r = true) pages →
  Forall (λ r, truthy (pageCursor r) = true) pages →
  serves axios_request w pages →
  (∀ log cfg, length log = length (sent w) + length pages →
              axios_request log cfg = answer) →
  settle engine this (baseUrl this +:+ path) answer = Throw e →
  length pages < fuel →
  ∃ w',
    paginatedCall engine this axios_request fuel path item params headers w
    = Some (Throw e, w') ∧
    length (sent w') = length (sent w) + S (length pages).
Proof.
  intros Hpages Hcursors Hserves Hanswer Hfail Hfuel.
  unfold paginatedCall.
  pose proof (headersObject_sent headers w) as Hs0.
  destruct (headersObject headers w) as [l w1]. cbn [snd] in Hs0.
  destruct (paginatedLoop_pages engine this axios_request path item l pages
              params (VStr "firstCall") [] w1 eq_refl Hpages Hcursors)
    as (w2 & Hrun & Hsent & Hreq); [by apply (serves_same_log w)|].
  set (st := afterPages params (VStr "firstCall") (pageCursor <$> pages)) in *.
  assert (truthy st.2 = true) as Hst.
  { apply afterPages_truthy; [done|]. by apply Forall_fmap. }
  assert (length (sent w2) = length (sent w) + length pages) as Hlen.
  { by rewrite Hsent, Hs0, length_app, length_fmap, requestParams_length,
      length_fmap. }
  replace fuel with (length pages + S (fuel - S (length pages))) by lia.
  rewrite Hrun.
  rewrite (paginatedLoop_failure engine this axios_request path item l _ _ _ _ _
             e Hst).
  - eexists. split; [reflexivity|].
    rewrite makeRequest_sent, length_app. cbn. lia.
  - rewrite makeRequest_result. cbv zeta. rewrite issued_url.
    by rewrite (Hanswer _ _ Hlen).
Qed.

End PaginatedCall.

(** * Concrete runs *)

Lemma replay_serves (answers : list AxiosResponse) :
  serves (Sample.replay (Resolved <$> answers)) Sample.emptyWorld answers.
Proof.
  intros i res log cfg Hi Hlog. unfold Sample.replay. cbn in Hlog. rewrite Hlog.
  apply (nth_lookup_Some _ _ (Rejected (ErrorObject [] "script exhausted" VUndefined))).
  by rewrite list_lookup_fmap, Hi.
Defined.

(** A 200 yields the decoded body unchanged. *)
Example makeRequest_ok_example :
  fst (makeRequest Sample.engine Sample.client
         (Sample.always (Resolved (Sample.pageOf [VStr "HOST-1"] "")))
         "/api/v2/entities" Sample.filters None None VUndefined None None
         Sample.emptyWorld)
  = Return (VObj [("items", VArr [VStr "HOST-1"]); ("nextPageKey", VStr "")]).
Proof. reflexivity. Qed.


(** A caller's own [Authorization] entry is replaced, in the request and in
    the caller's object. *)
Example makeRequest_authorization_example :
  let w' :=
    snd (makeRequest Sample.engine Sample.client
           (Sample.always (Resolved (Sample.pageOf [] "")))
           "/api/v2/entities" Sample.filters None (Some 0) VUndefined None None
           (Sample.callerWorld {["Authorization" := "Bearer mine"]})) in
  (req_headers <$> sent w') = [readObject 0 w'] ∧
  readObject 0 w' !! "Authorization" = Some "Api-Token dt0c01.TOKEN".
Proof. split; vm_compute; reflexivity. Qed.

(** The caller's "Bearer mine" is replaced by the token of the client, in
    the request and in the caller's object. *)
Lemma makeRequest_authorization_witness :
  let w' :=
    snd (makeRequest Sample.engine Sample.client
           (Sample.always (Resolved (Sample.pageOf [] "")))
           "/api/v2/entities" Sample.filters None (Some 0) VUndefined None None
           (Sample.callerWorld {["Authorization" := "Bearer mine"]})) in
  ∃ cfg,
    sent w' = [] ++ [cfg] ∧
    req_headers cfg !! "Authorization" = Some "Api-Token dt0c01.TOKEN" ∧
    ∀ l, Some 0 = Some l → objects w' !! l = Some (req_headers cfg).
Proof.
  apply (makeRequest_authorization Sample.engine Sample.client
           (Sample.always (Resolved (Sample.pageOf [] "")))
           "/api/v2/entities" Sample.filters None (Some 0) VUndefined None None
           (Sample.callerWorld {["Authorization" := "Bearer mine"]})).
Defined.

(** Without a headers argument the request carries the token all the same. *)
Example makeRequest_authorization_no_headers_example :
  (λ cfg, req_headers cfg !! "Authorization")
  <$> sent (snd (makeRequest Sample.engine Sample.client
                   (Sample.always (Resolved (Sample.pageOf [] "")))
                   "/api/v2/entities" Sample.filters None None VUndefined None None
                   Sample.emptyWorld))
  = [Some "Api-Token dt0c01.TOKEN"].
Proof. vm_compute. reflexivity. Qed.

(** A POST with a file attachment and a body: the body is not sent. *)
Example makeRequest_upload_example :
  (λ cfg, (req_method cfg, req_data cfg, req_headers cfg !! "Content-type"))
  <$> sent (snd (makeRequest Sample.engine Sample.client
                   (Sample.always (Resolved (Sample.pageOf [] "")))
                   "/api/v2/extensions" (VObj [("ignored", VBool true)]) (Some "POST")
                   None VUndefined (Some Sample.upload) None Sample.emptyWorld))
  = [("POST",
      DataForm [{| part_field := "file";
                   part_bytes := [Byte.x50; Byte.x4b; Byte.x03; Byte.x04];
                   part_filename := "extension.zip" |}],
      Some "multipart/form-data")].
Proof. vm_compute. reflexivity. Qed.


(** The same 401, had it come through a fulfilled promise. *)
Lemma makeRequest_fulfilled_error_status_witness :
  ∃ message,
    fst (makeRequest Sample.engine Sample.client
           (Sample.always (Resolved Sample.unauthorized))
           "/api/v2/entities" Sample.filters None None VUndefined None None
           Sample.emptyWorld)
    = Throw (ApiError message
               (VObj [("code", VNum 0); ("constraintViolations", VArr []);
                      ("message", VStr message)])).
Proof.
  apply (makeRequest_fulfilled_error_status Sample.engine Sample.client
           (Sample.always (Resolved Sample.unauthorized))
           "/api/v2/entities" Sample.filters None None VUndefined None None
           Sample.emptyWorld Sample.unauthorized
           [("error", errorDetail 401 "Token Authentication failed" [])]).
  - reflexivity.
  - cbn. lia.
  - reflexivity.
Defined.

Lemma makeRequest_no_response_witness :
  fst (makeRequest Sample.engine Sample.client
         (Sample.always (Rejected Sample.timedOut))
         "/api/v2/entities" Sample.filters None None VUndefined None None
         Sample.emptyWorld)
  = Throw (ApiError "No response from server https://abc.live.dynatrace.com"
             (VObj [("code", VNum 0); ("constraintViolations", VArr []);
                    ("message", VStr "timeout of 1000ms exceeded")])).
Proof.
  apply (makeRequest_no_response Sample.engine Sample.client
           (Sample.always (Rejected Sample.timedOut))
           "/api/v2/entities" Sample.filters None None VUndefined None None
           Sample.emptyWorld Sample.timedOut).
  - reflexivity.
  - compute_done.
  - compute_done.
Defined.



(** The caller's "Content-type: text/plain" leaves as application/json. *)
Lemma makeRequest_content_type_overwritten_witness :
  ∃ cfg,
    sent (snd (makeRequest Sample.engine Sample.client
                 (Sample.always (Resolved (Sample.pageOf [] "")))
                 "/api/v2/entities" Sample.filters None (Some 0) VUndefined None None
                 (Sample.callerWorld {["Content-type" := "text/plain"]})))
    = [] ++ [cfg] ∧
    req_headers cfg !! "Content-type" = Some "application/json".
Proof.
  apply (makeRequest_content_type_overwritten Sample.engine Sample.client
           (Sample.always (Resolved (Sample.pageOf [] "")))
           "/api/v2/entities" Sample.filters None 0 VUndefined None
           (Sample.callerWorld {["Content-type" := "text/plain"]})).
  compute_done.
Defined.

(** The two mock pages of the spec: three items, two requests, the first
    with the caller's filters, the second with the cursor alone. *)
Lemma paginatedCall_all_pages_witness :
  ∃ w' reqs,
    paginatedCall Sample.engine Sample.client
      (Sample.replay
         (Resolved <$> [Sample.pageOf [VStr "a"; VStr "b"] "k1"; Sample.pageOf [VStr "c"] ""]))
      2 "/api/v2/entities" "items" Sample.filters None Sample.emptyWorld
    = Some (Return [VStr "a"; VStr "b"; VStr "c"], w') ∧
    sent w' = [] ++ reqs ∧
    length reqs = 2 ∧
    Forall (λ r, req_method r = "GET") reqs ∧
    req_params <$> head reqs = Some Sample.filters ∧
    ∀ i r, [Sample.pageOf [VStr "a"; VStr "b"] "k1"] !! i = Some r →
      ∃ q q', reqs !! i = Some q ∧ reqs !! S i = Some q' ∧
        req_params q'
        = if isStr (pageCursor r) "firstCall" then req_params q
          else VObj [("nextPageKey", pageCursor r)].
Proof.
  apply (paginatedCall_all_pages Sample.engine Sample.client _
           "/api/v2/entities" "items"
           [Sample.pageOf [VStr "a"; VStr "b"] "k1"] (Sample.pageOf [VStr "c"] "")
           Sample.filters None Sample.emptyWorld 2).
  - repeat constructor.
  - repeat constructor.
  - reflexivity.
  - apply (replay_serves
             [Sample.pageOf [VStr "a"; VStr "b"] "k1"; Sample.pageOf [VStr "c"] ""]).
  - cbn. lia.
Defined.

(** C2, as stated, fails on the code: when the first page hands out the
    cursor "firstCall", the second request carries the caller's filters
    again instead of [{nextPageKey: "firstCall"}]. *)
Lemma paginatedCall_sentinel_counterexample :
  (∃ w',
     paginatedCall Sample.engine Sample.client
       (Sample.replay
          (Resolved <$> [Sample.pageOf [VStr "a"] "firstCall"; Sample.pageOf [VStr "b"] ""]))
       2 "/api/v2/entities" "items" Sample.filters None Sample.emptyWorld
     = Some (Return [VStr "a"; VStr "b"], w') ∧
     req_params <$> sent w' = [Sample.filters; Sample.filters]) ∧
  Sample.filters ≠ VObj [("nextPageKey", VStr "firstCall")].
Proof.
  split; [|discriminate].
  eexists. split; [vm_compute; reflexivity|]. reflexivity.
Qed.

(** An item field named as a property that every object inherits: the
    page has it, its value is a function, and the spread fails on the first
    page. *)
Example paginatedCall_inherited_item_example :
  fst <$> paginatedCall Sample.engine Sample.client
            (Sample.always (Resolved (Sample.pageOf [VStr "a"] "")))
            2 "/api/v2/entities" "constructor" Sample.filters None Sample.emptyWorld
  = Some (Throw (typeError Sample.engine (NotIterable VNative))).
Proof. reflexivity. Qed.

Lemma paginatedCall_firstCall_cursor_witness :
  ∃ out w' reqs,
    paginatedCall Sample.engine Sample.client
      (Sample.replay
         (Resolved <$> [Sample.pageOf [VStr "a"] "firstCall"; Sample.pageOf [VStr "b"] ""]))
      2 "/api/v2/entities" "items" Sample.filters None Sample.emptyWorld
    = Some (Return out, w') ∧
    sent w' = [] ++ reqs ∧
    length reqs = 2 ∧
    (∀ i r, [Sample.pageOf [VStr "a"] "firstCall"] !! i = Some r →
       pageCursor r = VStr "firstCall" →
       ∃ q q', reqs !! i = Some q ∧ reqs !! S i = Some q' ∧
               req_params q' = req_params q) ∧
    Forall (λ q, req_params q = Sample.filters ∨
                 ∃ c, req_params q = VObj [("nextPageKey", c)] ∧
                      c ≠ VStr "firstCall") reqs.
Proof.
  apply (paginatedCall_firstCall_cursor Sample.engine Sample.client _
           "/api/v2/entities" "items"
           [Sample.pageOf [VStr "a"] "firstCall"] (Sample.pageOf [VStr "b"] "")
           Sample.filters None Sample.emptyWorld 2).
  - repeat constructor.
  - repeat constructor.
  - reflexivity.
  - apply (replay_serves
             [Sample.pageOf [VStr "a"] "firstCall"; Sample.pageOf [VStr "b"] ""]).
  - cbn. lia.
Defined.

(** Page 2 of 3 gets no response: the call fails with the error of that
    request after two requests. *)
Lemma paginatedCall_page_failure_witness :
  ∃ w',
    paginatedCall Sample.engine Sample.client
      (Sample.replay
         [Resolved (Sample.pageOf [VStr "a"; VStr "b"] "k1"); Rejected Sample.timedOut;
          Resolved (Sample.pageOf [VStr "c"] "")])
      3 "/api/v2/entities" "items" Sample.filters None Sample.emptyWorld
    = Some (Throw (ApiError "No response from server https://abc.live.dynatrace.com"
                     (VObj [("code", VNum 0); ("constraintViolations", VArr []);
                            ("message", VStr "timeout of 1000ms exceeded")])),
            w') ∧
    length (sent w') = 0 + 2.
Proof.
  apply (paginatedCall_page_failure Sample.engine Sample.client _
           "/api/v2/entities" "items"
           [Sample.pageOf [VStr "a"; VStr "b"] "k1"] (Rejected Sample.timedOut)).
  - repeat constructor.
  - repeat constructor.
  - intros i res log cfg Hi Hlog. unfold Sample.replay. cbn in Hlog. rewrite Hlog.
    destruct i as [|i]; [|discriminate]. cbn in Hi |- *. congruence.
  - intros log cfg Hlog. unfold Sample.replay. cbn in Hlog. rewrite Hlog. reflexivity.
  - reflexivity.
  - cbn. lia.
Defined.

(** * Further properties of the client *)

Section RequestExecutorMore.

Variable engine : Engine.
Variable this : HttpClient.
Variable axios_request : Transport.

(** X1: [makeRequest] returns exactly when the promise of [axios.request] is
    fulfilled with a status below 400, and then with the body as it is; in
    every other case it throws. *)
Theorem makeRequest_returns_iff
    path params method headers queryParams files responseType w v :
  fst (makeRequest engine this axios_request path params method headers queryParams files responseType w)
  = Return v
  ↔ ∃ res,
      axios_request (sent w)
        (issued this path params method headers queryParams files responseType w)
      = Resolved res ∧
      (status res < 400)%Z ∧ res_data res = v.
Proof.
  rewrite makeRequest_result. cbv zeta.
  destruct (axios_request _ _) as [res|err]; cbn [settle].
  - unfold onFulfilled. case_bool_decide as Hs.
    + split.
      * destruct (getProp (res_data res) "error"); discriminate.
      * intros (res' & Heq & Hlt & _). simplify_eq. lia.
    + split.
      * intros Heq. exists res. split; [done|]. split; [lia|congruence].
      * intros (res' & Heq & _ & Hv). simplify_eq. done.
  - split; [discriminate|]. intros (res' & Heq & _). discriminate.
Qed.

(** X5: For a method other than "POST" and "PUT" (the comparison is exact:
    "post" is such a method) and no file attachment, [params] is the query,
    the body is [null], and [queryParams] is not sent at all. *)
Theorem makeRequest_query_only
    path params method headers queryParams responseType w :
  default "GET" method ≠ "POST" →
  default "GET" method ≠ "PUT" →
  ∃ cfg,
    sent (snd (makeRequest engine this axios_request path params method headers queryParams None responseType w))
    = sent w ++ [cfg] ∧
    req_method cfg = default "GET" method ∧
    req_params cfg = params ∧
    req_data cfg = DataBody VNull.
Proof.
  intros Hpost Hput. eexists. split; [apply makeRequest_sent|].
  unfold issued. destruct (headersObject headers w) as [l w1].
  unfold buildRequest.
  rewrite !bool_decide_eq_false_2 by done. done.
Qed.

(** X6: For "POST" and "PUT" without file attachment, [params] is the body and
    [queryParams] is the query. *)
Theorem makeRequest_body_and_query
    path params method headers queryParams responseType w :
  method = "POST" ∨ method = "PUT" →
  ∃ cfg,
    sent (snd (makeRequest engine this axios_request path params (Some method) headers queryParams None
                 responseType w))
    = sent w ++ [cfg] ∧
    req_params cfg = queryParams ∧
    req_data cfg = DataBody params.
Proof.
  intros Hm. eexists. split; [apply makeRequest_sent|].
  unfold issued. destruct (headersObject headers w) as [l w1].
  unfold buildRequest. cbn [default from_option id].
  by destruct Hm as [-> | ->].
Qed.

(** X10: Whatever the call, the headers of the caller other than "Content-type"
    and "Authorization" are sent as they are. *)
Theorem makeRequest_other_headers_kept
    path params method l queryParams files responseType w k :
  k ≠ "Content-type" →
  k ≠ "Authorization" →
  ∃ cfg,
    sent (snd (makeRequest engine this axios_request path params method (Some l) queryParams files responseType w))
    = sent w ++ [cfg] ∧
    req_headers cfg !! k = readObject l w !! k.
Proof.
  intros Hct Hauth. eexists. split; [apply makeRequest_sent|].
  cbn [issued headersObject]. rewrite buildRequest_headers. cbv zeta.
  rewrite lookup_insert_ne by done.
  destruct files; case_bool_decide; by rewrite ?lookup_insert_ne.
Qed.

(** X9: With a file attachment and a header of the caller spelled
    "Content-Type", the request carries both that entry and
    "Content-type: multipart/form-data". *)
Theorem makeRequest_two_content_types
    path params method l queryParams f responseType w v :
  readObject l w !! "Content-Type" = Some v →
  ∃ cfg,
    sent (snd (makeRequest engine this axios_request path params method (Some l) queryParams (Some f)
                 responseType w))
    = sent w ++ [cfg] ∧
    req_headers cfg !! "Content-Type" = Some v ∧
    req_headers cfg !! "Content-type" = Some "multipart/form-data".
Proof.
  intros Hv. eexists. split; [apply makeRequest_sent|].
  cbn [issued headersObject]. rewrite buildRequest_headers. cbv zeta.
  rewrite bool_decide_eq_true_2 by (apply elem_of_dom; eauto).
  split.
  - by rewrite !lookup_insert_ne.
  - rewrite lookup_insert_ne by done. apply lookup_insert_eq.
Qed.

(** X4: A rejection that has the key [response] while the response, or its
    [data], is [undefined] or [null] escapes the normalisation: the call
    fails with the [TypeError] of the property read, which is no
    [DynatraceAPIError]. *)
Theorem makeRequest_response_unreadable
    path params method headers queryParams files responseType w
    keys message response :
  axios_request (sent w)
    (issued this path params method headers queryParams files responseType w)
  = Rejected (ErrorObject keys message response) →
  "response" ∈ keys →
  nullish response = true ∨
  (∃ d, getProp response "data" = inr d ∧ nullish d = true) →
  ∃ f,
    fst (makeRequest engine this axios_request path params method headers queryParams files responseType w)
    = Throw (ErrorObject [] (faultMessage engine f) VUndefined).
Proof.
  intros Hreq Hk Hnull. rewrite makeRequest_result. cbv zeta. rewrite Hreq.
  cbn [settle]. unfold onRejected. cbn [thrownKeys thrownResponse thrownMessage].
  rewrite bool_decide_eq_true_2 by done.
  destruct Hnull as [Hr | (d & Hd & Hn)].
  - destruct response; try discriminate; cbn; eexists; reflexivity.
  - rewrite Hd. destruct d; try discriminate; cbn; eexists; reflexivity.
Qed.

(** X3: A rejection whose response body has no [error] field (a text body, an
    object of another shape) gives an error with the message of the
    rejection and [undefined] as detail. *)
Theorem makeRequest_response_without_error
    path params method headers queryParams files responseType w
    keys message response d :
  axios_request (sent w)
    (issued this path params method headers queryParams files responseType w)
  = Rejected (ErrorObject keys message response) →
  "response" ∈ keys →
  getProp response "data" = inr d →
  getProp d "error" = inr VUndefined →
  fst (makeRequest engine this axios_request path params method headers queryParams files responseType w)
  = Throw (ApiError message VUndefined).
Proof.
  intros Hreq Hk Hd He. rewrite makeRequest_result. cbv zeta. rewrite Hreq.
  cbn [settle]. rewrite (onRejected_response _ _ _ _ _ _ _ Hk Hd). by rewrite He.
Qed.

(** X11: When the headers argument is omitted, the call works on an object of
    its own: every headers object of the store is left as it was. *)
Theorem makeRequest_omitted_headers_fresh
    path params method queryParams files responseType w l h :
  objects w !! l = Some h →
  objects (snd (makeRequest engine this axios_request path params method None queryParams files responseType w))
  !! l = Some h.
Proof.
  intros Hl. cbn.
  assert (newRef w ≠ l) as Hne.
  { intros <-. apply (is_fresh (dom (objects w))).
    apply elem_of_dom. unfold newRef in Hl. eauto. }
  by rewrite !lookup_insert_ne.
Qed.

End RequestExecutorMore.

Section PaginatorMore.

Variable engine : Engine.
Variable this : HttpClient.
Variable axios_request : Transport.
Variables path item : string.

#[local] Abbreviation loop := (paginatedLoop engine this axios_request).

Lemma pageRequest_headers h q :
  req_headers (pageRequest this path h q) = jsonHeaders this h.
Proof. unfold pageRequest. by rewrite buildRequest_headers. Qed.

Lemma jsonHeaders_again h : jsonHeaders this (jsonHeaders this h) = jsonHeaders this h.
Proof.
  rewrite <- !(pageRequest_headers _ VUndefined).
  by rewrite (pageRequest_again this path).
Qed.

(** What any run of the loop leaves behind, whatever its outcome: the
    requests it has sent, all built from the headers object as it was on
    entry; the other objects of the store untouched; the headers object
    rewritten with the headers sent. *)
Lemma paginatedLoop_trace l fuel :
  ∀ params nextPageKey items w r w',
    loop fuel path item l params nextPageKey items w = Some (r, w') →
    ∃ qs,
      sent w' = sent w ++ (pageRequest this path (readObject l w) <$> qs) ∧
      (∀ l', l' ≠ l → objects w' !! l' = objects w !! l') ∧
      (truthy nextPageKey = true →
       qs ≠ [] ∧ objects w' !! l = Some (jsonHeaders this (readObject l w))).
Proof.
  induction fuel as [|fuel IH]; intros params npk items w r w' Hrun.
  - cbn in Hrun. destruct (truthy npk) eqn:Ht; [discriminate|].
    simplify_eq. exists []. cbn. by rewrite app_nil_r.
  - destruct (truthy npk) eqn:Ht.
    2:{ rewrite paginatedLoop_done in Hrun by done. simplify_eq.
        exists []. cbn. by rewrite app_nil_r. }
    rewrite paginatedLoop_step in Hrun by done.
    rewrite get_world in Hrun.
    set (q := nextParams params npk) in *.
    set (h := readObject l w) in *.
    set (w1 := record (pageRequest this path h q)
                 (writeObject l (req_headers (pageRequest this path h q)) w)) in *.
    assert (sent w1 = sent w ++ [pageRequest this path h q]) as Hsent1 by done.
    assert (∀ l', l' ≠ l → objects w1 !! l' = objects w !! l') as Hframe1.
    { intros l' Hl'. cbn. by rewrite lookup_insert_ne. }
    assert (objects w1 !! l = Some (jsonHeaders this h)) as Hobj1.
    { cbn. by rewrite lookup_insert_eq, pageRequest_headers. }
    assert (readObject l w1 = jsonHeaders this h) as Hread1.
    { unfold readObject. by rewrite Hobj1. }
    destruct (fst (makeRequest engine this axios_request path q (Some "GET")
                     (Some l) VUndefined None None w)) as [response|e].
    2:{ simplify_eq. exists [q]. by rewrite Hsent1. }
    destruct (getProp response "nextPageKey") as [f|cursor].
    { simplify_eq. exists [q]. by rewrite Hsent1. }
    destruct (pushed item response) as [f|xs].
    { simplify_eq. exists [q]. by rewrite Hsent1. }
    destruct (truthy cursor) eqn:Hc.
    2:{ rewrite paginatedLoop_done in Hrun by done. simplify_eq.
        exists [q]. by rewrite Hsent1. }
    apply IH in Hrun as (qs & Hsent & Hframe & Hobj).
    exists (q :: qs). split; [|split].
    + rewrite Hsent, Hsent1, Hread1, <- app_assoc. cbn. do 2 f_equal.
      apply list_fmap_ext. intros _ q' _.
      rewrite <- (pageRequest_headers h q). apply pageRequest_again.
    + intros l' Hl'. by rewrite Hframe, Hframe1.
    + intros _. split; [done|].
      destruct (Hobj Hc) as [_ ->]. by rewrite Hread1, jsonHeaders_again.
Qed.


(** X13: After a paginated call on a headers object of the caller, whatever the
    outcome, that object holds the headers that were sent, the
    [Authorization] with the token included. *)
Theorem paginatedCall_headers_object fuel params l w r w' :
  paginatedCall engine this axios_request fuel path item params (Some l) w = Some (r, w') →
  objects w' !! l = Some (jsonHeaders this (readObject l w)) ∧
  readObject l w' !! "Authorization" = Some ("Api-Token " +:+ apiToken this).
Proof.
  unfold paginatedCall. cbn [headersObject]. intros Hrun.
  apply paginatedLoop_trace in Hrun as (qs & _ & _ & Hq).
  destruct (Hq eq_refl) as [_ Hobj]. split; [done|].
  unfold readObject at 1. rewrite Hobj. cbn. apply lookup_insert_eq.
Qed.

(** X14: When the headers argument is omitted, a paginated call leaves every
    headers object of the store as it was. *)
Theorem paginatedCall_omitted_headers_fresh fuel params w r w' l h :
  paginatedCall engine this axios_request fuel path item params None w = Some (r, w') →
  objects w !! l = Some h →
  objects w' !! l = Some h.
Proof.
  unfold paginatedCall. cbn [headersObject]. intros Hrun Hl.
  apply paginatedLoop_trace in Hrun as (qs & _ & Hframe & _).
  assert (newRef w ≠ l) as Hne.
  { intros <-. apply (is_fresh (dom (objects w))).
    apply elem_of_dom. unfold newRef in Hl. eauto. }
  rewrite Hframe by done. cbn. by rewrite lookup_insert_ne.
Qed.

(** X15: Against a server whose every answer is a page with a cursor, the loop
    does not end: no bound on the iterations is enough. *)
Theorem paginatedCall_never_ends params headers w :
  (∀ log cfg, ∃ res,
      axios_request log cfg = Resolved res ∧
      isPage item res = true ∧ truthy (pageCursor res) = true) →
  ∀ fuel, paginatedCall engine this axios_request fuel path item params headers w = None.
Proof.
  intros Hserver fuel. unfold paginatedCall.
  destruct (headersObject headers w) as [l w1].
  assert (∀ q k items w2, truthy k = true →
            loop fuel path item l q k items w2 = None) as Hloop; [|by apply Hloop].
  induction fuel as [|fuel IH]; intros q k items w2 Hk.
  - cbn. by rewrite Hk.
  - destruct (Hserver (sent w2)
                (pageRequest this path (readObject l w2) (nextParams q k)))
      as (res & Hres & Hpage & Hcursor).
    rewrite (paginatedLoop_page _ _ _ _ _ _ _ _ _ _ _ res Hk Hres Hpage).
    by apply IH.
Qed.

(** X16: A page that cannot be read as one (its body is [undefined] or [null],
    or is no object, or holds under the item field something that cannot be
    spread) ends the call with the [TypeError] of that operation, which is no
    [DynatraceAPIError]; no request follows, and the items of the earlier
    pages are not returned. *)
Theorem paginatedCall_page_unreadable pgs res f params headers w fuel :
  Forall (λ r, isPage item r = true) pgs →
  Forall (λ r, truthy (pageCursor r) = true) pgs →
  serves axios_request w pgs →
  (∀ log cfg, length log = length (sent w) + length pgs →
              axios_request log cfg = Resolved res) →
  (status res < 400)%Z →
  pageFault item (res_data res) = Some f →
  length pgs < fuel →
  ∃ w',
    paginatedCall engine this axios_request fuel path item params headers w
    = Some (Throw (ErrorObject [] (faultMessage engine f) VUndefined), w') ∧
    length (sent w') = length (sent w) + S (length pgs).
Proof.
  intros Hpages Hcursors Hserves Hanswer Hstatus Hfault Hfuel.
  unfold paginatedCall.
  pose proof (headersObject_sent headers w) as Hs0.
  destruct (headersObject headers w) as [l w1]. cbn [snd] in Hs0.
  destruct (paginatedLoop_pages engine this axios_request path item l pgs
              params (VStr "firstCall") [] w1 eq_refl Hpages Hcursors)
    as (w2 & Hrun & Hsent & Hreq); [by apply (serves_same_log _ w)|].
  set (st := afterPages params (VStr "firstCall") (pageCursor <$> pgs)) in *.
  assert (truthy st.2 = true) as Hst.
  { apply afterPages_truthy; [done|]. by apply Forall_fmap. }
  assert (length (sent w2) = length (sent w) + length pgs) as Hlen.
  { by rewrite Hsent, Hs0, length_app, length_fmap, requestParams_length,
      length_fmap. }
  replace fuel with (length pgs + S (fuel - S (length pgs))) by lia.
  rewrite Hrun, paginatedLoop_step by done.
  rewrite get_world, makeRequest_result. cbv zeta.
  rewrite (Hanswer _ _ Hlen), settle_resolved_ok by done.
  unfold pageFault in Hfault.
  destruct (getProp (res_data res) "nextPageKey") as [f'|cursor].
  - simplify_eq. eexists. split; [reflexivity|]. cbn. rewrite length_app. cbn. lia.
  - destruct (pushed item (res_data res)) as [f'|xs]; [|discriminate].
    simplify_eq. eexists. split; [reflexivity|]. cbn. rewrite length_app. cbn. lia.
Qed.

End PaginatorMore.

(** * The service for v1 extensions *)

Section ExtensionsServiceV1Facts.

Variable engine : Engine.
Variable httpClient : Client.
Variable signal : option AbortSignal.

#[local] Abbreviation v1loop := (getExtensionsLoop engine httpClient).

Lemma sent_cursors (k : JsValue) (cs : list JsValue) :
  take (length cs) (k :: cs) ++ [default k (last cs)] = k :: cs.
Proof.
  revert k. induction cs as [|c cs IH]; intros k; [done|].
  cbn [length take]. rewrite <- app_comm_cons. f_equal.
  assert (default k (last (c :: cs)) = default c (last cs)) as ->; [|apply IH].
  destruct cs as [|c2 cs]; [done|]. rewrite last_cons_cons.
  destruct (last (c2 :: cs)) eqn:E; [done|]. by apply last_None in E.
Qed.

Lemma answers_head calls res bodies options :
  answers httpClient calls (res :: bodies) →
  httpClient calls options = Return res.
Proof. intros H. apply (H 0); [done|lia]. Qed.

Lemma answers_tail calls res bodies options :
  answers httpClient calls (res :: bodies) →
  answers httpClient (calls ++ [options]) bodies.
Proof.
  intros H i r log o Hi Hlog. apply (H (S i)); [done|].
  rewrite length_app in Hlog. cbn in Hlog. lia.
Qed.

(** One iteration on a page with a cursor. *)
Lemma getExtensionsLoop_page fuel extensions k calls res :
  httpClient calls (v1Options signal k) = Return res →
  isV1Page res = true →
  truthy (v1Cursor res) = true →
  v1loop (S fuel) signal extensions k calls
  = v1loop fuel signal (extensions ++ v1Items res) (v1Cursor res)
      (calls ++ [v1Options signal k]).
Proof.
  intros Hres Hpage Hc. cbn [getExtensionsLoop]. fold (v1Options signal k).
  rewrite Hres. unfold isV1Page, v1Items, v1Cursor in *.
  destruct (v1Extensions res) as [f|xs] eqn:Hx; [discriminate|].
  destruct (getProp res "nextPageKey") as [f|c]; [discriminate|].
  by rewrite Hc.
Qed.

(** The loop run over pages that all hand out a cursor. *)
Lemma getExtensionsLoop_pages bodies :
  ∀ n extensions k calls,
    Forall (λ r, isV1Page r = true) bodies →
    Forall (λ r, truthy (v1Cursor r) = true) bodies →
    answers httpClient calls bodies →
    v1loop (length bodies + n) signal extensions k calls
    = v1loop n signal (extensions ++ concat (v1Items <$> bodies))
        (default k (last (v1Cursor <$> bodies)))
        (calls ++ (v1Options signal
                     <$> take (length bodies) (k :: (v1Cursor <$> bodies)))).
Proof.
  induction bodies as [|res bodies IH]; intros n extensions k calls Hp Hc Ha.
  - cbn. by rewrite !app_nil_r.
  - apply Forall_cons in Hp as [Hres Hp]. apply Forall_cons in Hc as [Hk Hc].
    cbn [length Nat.add].
    rewrite (getExtensionsLoop_page _ _ _ _ res); [|by eapply answers_head|done..].
    rewrite IH; [|done|done|by eapply answers_tail].
    cbn [fmap list_fmap concat take]. rewrite <- !app_assoc. cbn [app].
    assert (default (v1Cursor res) (last (v1Cursor <$> bodies))
            = default k (last (v1Cursor res :: (v1Cursor <$> bodies)))) as ->;
      [|done].
    destruct bodies as [|res2 bodies]; [done|].
    cbn [fmap list_fmap]. rewrite last_cons_cons.
    destruct (last (v1Cursor res2 :: (v1Cursor <$> bodies))) eqn:E; [done|].
    by apply last_None in E.
Qed.

(** X17: A complete run of [getExtensions]: every page but the last hands out a
    cursor.  The call returns the extensions of all pages in order; the
    first call carries [{nextPageKey: undefined}] and each later one the
    cursor of the page before it, whatever that cursor is; all calls are on
    the endpoint and carry the signal of the caller. *)
Theorem getExtensions_all_pages bodies lastBody calls fuel :
  Forall (λ r, isV1Page r = true) (bodies ++ [lastBody]) →
  Forall (λ r, truthy (v1Cursor r) = true) bodies →
  truthy (v1Cursor lastBody) = false →
  answers httpClient calls (bodies ++ [lastBody]) →
  length bodies < fuel →
  getExtensions engine httpClient fuel signal calls
  = Some (Return (concat (v1Items <$> (bodies ++ [lastBody]))),
          calls ++ (v1Options signal <$> (VUndefined :: (v1Cursor <$> bodies)))).
Proof.
  intros Hp Hc Hlast Ha Hfuel. unfold getExtensions.
  apply Forall_app in Hp as [Hp Hlp]. apply Forall_inv in Hlp.
  replace fuel with (length bodies + S (fuel - S (length bodies))) by lia.
  rewrite getExtensionsLoop_pages; [|done|done|].
  2:{ intros i r log o Hi Hlog. apply (Ha i); [|done]. by apply lookup_app_l_Some. }
  set (k := default VUndefined (last (v1Cursor <$> bodies))).
  set (sentSoFar := calls ++ _).
  assert (httpClient sentSoFar (v1Options signal k) = Return lastBody) as Hres.
  { apply (Ha (length bodies)).
    - by rewrite lookup_app_r, Nat.sub_diag.
    - unfold sentSoFar. rewrite length_app, length_fmap, length_take. cbn.
      rewrite length_fmap. lia. }
  cbn [getExtensionsLoop]. fold (v1Options signal k). rewrite Hres.
  rewrite fmap_app, concat_app. cbn [fmap list_fmap concat].
  assert (∃ xs c, v1Extensions lastBody = inr xs ∧
                  getProp lastBody "nextPageKey" = inr c ∧
                  v1Items lastBody = xs ∧ truthy c = false)
    as (xs & c & Hx & Hk & Hi & Hcf).
  { unfold isV1Page, v1Items, v1Cursor in *.
    destruct (v1Extensions lastBody) eqn:Hx; [discriminate|].
    destruct (getProp lastBody "nextPageKey") eqn:Hk;
      [destruct lastBody; discriminate|].
    eauto 10. }
  rewrite Hx, Hk, Hcf, Hi. unfold sentSoFar.
  rewrite <- !app_assoc, !app_nil_r. cbn [app]. do 3 f_equal.
  change [v1Options signal k] with (v1Options signal <$> [k]).
  rewrite <- fmap_app, <- fmap_cons. f_equal.
  replace (length bodies) with (length (v1Cursor <$> bodies)) by apply length_fmap.
  unfold k. by rewrite sent_cursors.
Qed.

(** X18: A call that fails ends [getExtensions] with the error of that call, as
    it is; the extensions of the earlier pages are not returned and no call
    follows. *)
Theorem getExtensions_failure bodies e calls fuel :
  Forall (λ r, isV1Page r = true) bodies →
  Forall (λ r, truthy (v1Cursor r) = true) bodies →
  answers httpClient calls bodies →
  (∀ log options, length log = length calls + length bodies →
                  httpClient log options = Throw e) →
  length bodies < fuel →
  ∃ calls',
    getExtensions engine httpClient fuel signal calls = Some (Throw e, calls') ∧
    length calls' = length calls + S (length bodies).
Proof.
  intros Hp Hc Ha Hfail Hfuel. unfold getExtensions.
  replace fuel with (length bodies + S (fuel - S (length bodies))) by lia.
  rewrite getExtensionsLoop_pages by done.
  cbn [getExtensionsLoop]. rewrite Hfail.
  - eexists. split; [reflexivity|].
    rewrite !length_app, length_fmap, length_take. cbn. rewrite length_fmap. lia.
  - rewrite length_app, length_fmap, length_take. cbn. rewrite length_fmap. lia.
Qed.

(** X19: Unlike [paginatedCall], [getExtensions] does not test for the field: a
    body without [extensions] (or with one that cannot be spread) ends the
    call with a [TypeError]. *)
Theorem getExtensions_page_unreadable bodies res f calls fuel :
  Forall (λ r, isV1Page r = true) bodies →
  Forall (λ r, truthy (v1Cursor r) = true) bodies →
  answers httpClient calls bodies →
  (∀ log options, length log = length calls + length bodies →
                  httpClient log options = Return res) →
  v1Extensions res = inl f →
  length bodies < fuel →
  ∃ calls',
    getExtensions engine httpClient fuel signal calls
    = Some (Throw (ErrorObject [] (faultMessage engine f) VUndefined), calls') ∧
    length calls' = length calls + S (length bodies).
Proof.
  intros Hp Hc Ha Hres Hf Hfuel. unfold getExtensions.
  replace fuel with (length bodies + S (fuel - S (length bodies))) by lia.
  rewrite getExtensionsLoop_pages by done.
  cbn [getExtensionsLoop]. rewrite Hres.
  - rewrite Hf. eexists. split; [reflexivity|].
    rewrite !length_app, length_fmap, length_take. cbn. rewrite length_fmap. lia.
  - rewrite length_app, length_fmap, length_take. cbn. rewrite length_fmap. lia.
Qed.

End ExtensionsServiceV1Facts.

(** * More concrete runs *)

Lemma replay_answers (bodies : list JsValue) :
  answers (SampleV1.replay (Return <$> bodies)) [] bodies.
Proof.
  intros i res log options Hi Hlog. unfold SampleV1.replay. cbn in Hlog. rewrite Hlog.
  apply (nth_lookup_Some _ _ (Throw (ErrorObject [] "script exhausted" VUndefined))).
  by rewrite list_lookup_fmap, Hi.
Defined.

(** The method "post" is not "POST": the parameters go into the query. *)
Lemma makeRequest_query_only_witness :
  ∃ cfg,
    sent (snd (makeRequest Sample.engine Sample.client
                 (Sample.always (Resolved (Sample.pageOf [] "")))
                 "/api/v2/settings" Sample.filters (Some "post") None
                 (VObj [("validateOnly", VBool true)]) None None Sample.emptyWorld))
    = [] ++ [cfg] ∧
    req_method cfg = "post" ∧
    req_params cfg = Sample.filters ∧
    req_data cfg = DataBody VNull.
Proof.
  apply (makeRequest_query_only Sample.engine Sample.client _
           "/api/v2/settings" Sample.filters (Some "post") None
           (VObj [("validateOnly", VBool true)]) None Sample.emptyWorld);
    cbn; discriminate.
Defined.

Lemma makeRequest_body_and_query_witness :
  ∃ cfg,
    sent (snd (makeRequest Sample.engine Sample.client
                 (Sample.always (Resolved (Sample.pageOf [] "")))
                 "/api/v2/settings" Sample.filters (Some "PUT") None
                 (VObj [("validateOnly", VBool true)]) None None Sample.emptyWorld))
    = [] ++ [cfg] ∧
    req_params cfg = VObj [("validateOnly", VBool true)] ∧
    req_data cfg = DataBody Sample.filters.
Proof.
  apply (makeRequest_body_and_query Sample.engine Sample.client _
           "/api/v2/settings" Sample.filters "PUT" None
           (VObj [("validateOnly", VBool true)]) None Sample.emptyWorld).
  by right.
Defined.

Lemma makeRequest_other_headers_kept_witness :
  ∃ cfg,
    sent (snd (makeRequest Sample.engine Sample.client
                 (Sample.always (Resolved (Sample.pageOf [] "")))
                 "/api/v2/entities" Sample.filters None (Some 0) VUndefined None None
                 (Sample.callerWorld {["Accept" := "text/csv"]})))
    = [] ++ [cfg] ∧
    req_headers cfg !! "Accept"
    = readObject 0 (Sample.callerWorld {["Accept" := "text/csv"]}) !! "Accept".
Proof.
  apply (makeRequest_other_headers_kept Sample.engine Sample.client _
           "/api/v2/entities" Sample.filters None 0 VUndefined None None
           (Sample.callerWorld {["Accept" := "text/csv"]}) "Accept");
    discriminate.
Defined.

Lemma makeRequest_two_content_types_witness :
  ∃ cfg,
    sent (snd (makeRequest Sample.engine Sample.client
                 (Sample.always (Resolved (Sample.pageOf [] "")))
                 "/api/v2/extensions" VUndefined (Some "POST") (Some 0) VUndefined
                 (Some Sample.upload) None
                 (Sample.callerWorld {["Content-Type" := "application/json"]})))
    = [] ++ [cfg] ∧
    req_headers cfg !! "Content-Type" = Some "application/json" ∧
    req_headers cfg !! "Content-type" = Some "multipart/form-data".
Proof.
  apply (makeRequest_two_content_types Sample.engine Sample.client _
           "/api/v2/extensions" VUndefined (Some "POST") 0 VUndefined
           Sample.upload None
           (Sample.callerWorld {["Content-Type" := "application/json"]})).
  vm_compute. reflexivity.
Defined.

Lemma makeRequest_response_unreadable_witness :
  ∃ f,
    fst (makeRequest Sample.engine Sample.client
           (Sample.always (Rejected SampleV1.emptyResponse))
           "/api/v2/entities" Sample.filters None None VUndefined None None
           Sample.emptyWorld)
    = Throw (ErrorObject [] (faultMessage Sample.engine f) VUndefined).
Proof.
  apply (makeRequest_response_unreadable Sample.engine Sample.client _
           "/api/v2/entities" Sample.filters None None VUndefined None None
           Sample.emptyWorld ["config"; "request"; "response"]
           "Request failed with status code 500"
           (VObj [("status", VNum 500); ("data", VNull)])).
  - reflexivity.
  - compute_done.
  - right. exists VNull. split; reflexivity.
Defined.

Lemma makeRequest_response_without_error_witness :
  fst (makeRequest Sample.engine Sample.client
         (Sample.always (Rejected SampleV1.badGateway))
         "/api/v2/entities" Sample.filters None None VUndefined None None
         Sample.emptyWorld)
  = Throw (ApiError "Request failed with status code 502" VUndefined).
Proof.
  apply (makeRequest_response_without_error Sample.engine Sample.client _
           "/api/v2/entities" Sample.filters None None VUndefined None None
           Sample.emptyWorld ["config"; "request"; "response"] _
           (VObj [("status", VNum 502); ("data", VStr "<html>Bad Gateway</html>")])
           (VStr "<html>Bad Gateway</html>")).
  - reflexivity.
  - compute_done.
  - reflexivity.
  - reflexivity.
Defined.

Lemma makeRequest_omitted_headers_fresh_witness :
  objects (snd (makeRequest Sample.engine Sample.client
                  (Sample.always (Resolved (Sample.pageOf [] "")))
                  "/api/v2/entities" Sample.filters None None VUndefined None None
                  (Sample.callerWorld {["Accept" := "text/csv"]})))
  !! 0 = Some {["Accept" := "text/csv"]}.
Proof.
  apply (makeRequest_omitted_headers_fresh Sample.engine Sample.client _
           "/api/v2/entities" Sample.filters None VUndefined None None
           (Sample.callerWorld {["Accept" := "text/csv"]}) 0).
  vm_compute. reflexivity.
Defined.


Lemma paginatedCall_headers_object_witness :
  ∃ r w',
    paginatedCall Sample.engine Sample.client
      (Sample.replay
         (Resolved <$> [Sample.pageOf [VStr "a"] "k1"; Sample.pageOf [VStr "b"] ""]))
      2 "/api/v2/entities" "items" Sample.filters (Some 0)
      (Sample.callerWorld {["Accept" := "text/csv"]})
    = Some (r, w') ∧
    objects w' !! 0
    = Some (jsonHeaders Sample.client
              (readObject 0 (Sample.callerWorld {["Accept" := "text/csv"]}))) ∧
    readObject 0 w' !! "Authorization" = Some ("Api-Token " +:+ "dt0c01.TOKEN").
Proof.
  eexists _, _. split; [vm_compute; reflexivity|].
  apply (paginatedCall_headers_object Sample.engine Sample.client
           (Sample.replay
              (Resolved <$> [Sample.pageOf [VStr "a"] "k1"; Sample.pageOf [VStr "b"] ""]))
           "/api/v2/entities" "items" 2 Sample.filters 0
           (Sample.callerWorld {["Accept" := "text/csv"]})
           (Return [VStr "a"; VStr "b"])).
  vm_compute. reflexivity.
Defined.

Lemma paginatedCall_omitted_headers_fresh_witness :
  ∃ r w',
    paginatedCall Sample.engine Sample.client
      (Sample.replay
         (Resolved <$> [Sample.pageOf [VStr "a"] "k1"; Sample.pageOf [VStr "b"] ""]))
      2 "/api/v2/entities" "items" Sample.filters None
      (Sample.callerWorld {["Accept" := "text/csv"]})
    = Some (r, w') ∧
    objects w' !! 0 = Some {["Accept" := "text/csv"]}.
Proof.
  eexists _, _. split; [vm_compute; reflexivity|].
  apply (paginatedCall_omitted_headers_fresh Sample.engine Sample.client
           (Sample.replay
              (Resolved <$> [Sample.pageOf [VStr "a"] "k1"; Sample.pageOf [VStr "b"] ""]))
           "/api/v2/entities" "items" 2 Sample.filters
           (Sample.callerWorld {["Accept" := "text/csv"]})
           (Return [VStr "a"; VStr "b"])).
  - vm_compute. reflexivity.
  - vm_compute. reflexivity.
Defined.

(** A server that answers every request with the same page and cursor:
    twenty-five iterations do not end the call. *)
Lemma paginatedCall_never_ends_witness :
  paginatedCall Sample.engine Sample.client
    (Sample.always (Resolved (Sample.pageOf [VStr "a"] "again")))
    25 "/api/v2/entities" "items" Sample.filters None Sample.emptyWorld
  = None.
Proof.
  apply (paginatedCall_never_ends Sample.engine Sample.client
           (Sample.always (Resolved (Sample.pageOf [VStr "a"] "again")))
           "/api/v2/entities" "items" Sample.filters None Sample.emptyWorld).
  intros log cfg. exists (Sample.pageOf [VStr "a"] "again").
  split; [reflexivity|]. split; reflexivity.
Defined.

(** The second page comes back with an empty text body. *)
Lemma paginatedCall_page_unreadable_witness :
  ∃ w',
    paginatedCall Sample.engine Sample.client
      (Sample.replay
         [Resolved (Sample.pageOf [VStr "a"] "k1");
          Resolved {| status := 200; res_data := VStr "" |}])
      2 "/api/v2/entities" "items" Sample.filters None Sample.emptyWorld
    = Some (Throw (ErrorObject []
                     (faultMessage Sample.engine (CannotUseIn "items" (VStr "")))
                     VUndefined),
            w') ∧
    length (sent w') = 0 + 2.
Proof.
  apply (paginatedCall_page_unreadable Sample.engine Sample.client _
           "/api/v2/entities" "items"
           [Sample.pageOf [VStr "a"] "k1"] {| status := 200; res_data := VStr "" |}
           (CannotUseIn "items" (VStr ""))).
  - repeat constructor.
  - repeat constructor.
  - intros i res log cfg Hi Hlog. unfold Sample.replay. cbn in Hlog. rewrite Hlog.
    destruct i as [|i]; [|discriminate]. cbn in Hi |- *. congruence.
  - intros log cfg Hlog. unfold Sample.replay. cbn in Hlog. rewrite Hlog. reflexivity.
  - cbn. lia.
  - reflexivity.
  - cbn. lia.
Defined.

(** Two pages of v1 extensions, the first with the cursor "firstCall",
    which [getExtensions] sends on. *)
Lemma getExtensions_all_pages_witness :
  getExtensions Sample.engine
    (SampleV1.replay
       (Return <$> [SampleV1.pageOf [VStr "custom.a"] "firstCall";
                    SampleV1.lastPageOf [VStr "custom.b"]]))
    2 (Some 7) []
  = Some (Return [VStr "custom.a"; VStr "custom.b"],
          [] ++ (v1Options (Some 7) <$> [VUndefined; VStr "firstCall"])).
Proof.
  apply (getExtensions_all_pages Sample.engine _ (Some 7)
           [SampleV1.pageOf [VStr "custom.a"] "firstCall"]
           (SampleV1.lastPageOf [VStr "custom.b"]) [] 2).
  - repeat constructor.
  - repeat constructor.
  - reflexivity.
  - apply (replay_answers [SampleV1.pageOf [VStr "custom.a"] "firstCall";
                           SampleV1.lastPageOf [VStr "custom.b"]]).
  - cbn. lia.
Defined.

Lemma getExtensions_failure_witness :
  ∃ calls',
    getExtensions Sample.engine
      (SampleV1.replay
         [Return (SampleV1.pageOf [VStr "custom.a"] "k1"); Throw SampleV1.notFound])
      2 None []
    = Some (Throw SampleV1.notFound, calls') ∧
    length calls' = 0 + 2.
Proof.
  apply (getExtensions_failure Sample.engine _ None
           [SampleV1.pageOf [VStr "custom.a"] "k1"] SampleV1.notFound [] 2).
  - repeat constructor.
  - repeat constructor.
  - intros i res log o Hi Hlog. unfold SampleV1.replay. cbn in Hlog. rewrite Hlog.
    destruct i as [|i]; [|discriminate]. cbn in Hi |- *. congruence.
  - intros log o Hlog. unfold SampleV1.replay. cbn in Hlog. rewrite Hlog. reflexivity.
  - cbn. lia.
Defined.

(** A body with a cursor and no [extensions]. *)
Lemma getExtensions_page_unreadable_witness :
  ∃ calls',
    getExtensions Sample.engine
      (SampleV1.replay [Return (VObj [("nextPageKey", VStr "k1")])])
      1 None []
    = Some (Throw (ErrorObject []
                     (faultMessage Sample.engine (NotIterable VUndefined)) VUndefined),
            calls') ∧
    length calls' = 0 + 1.
Proof.
  apply (getExtensions_page_unreadable Sample.engine _ None
           [] (VObj [("nextPageKey", VStr "k1")]) (NotIterable VUndefined) [] 1).
  - constructor.
  - constructor.
  - intros i res log o Hi. discriminate.
  - intros log o Hlog. unfold SampleV1.replay. cbn in Hlog. rewrite Hlog. reflexivity.
  - reflexivity.
  - cbn. lia.
Defined.

(** * Reading the extension manifest *)

Module ExtensionParsingFacts.
Import ExtensionParsing.
#[local] Set Warnings "-clear-no-such-hyp".

(** ** Pieces of a string *)

Lemma split_not_nil sep s : split sep s ≠ [].
Proof.
  destruct s as [|c s]; cbn; [done|].
  destruct (Ascii.eqb c sep); [done|]. by destruct (split sep s).
Qed.

Lemma split_without sep s :
  sep ∉ String.list_ascii_of_string s → split sep s = [s].
Proof.
  induction s as [|c s IH]; cbn; [done|]. intros Hno.
  apply not_elem_of_cons in Hno as [Hc Hs].
  destruct (Ascii.eqb_spec c sep) as [->|_]; [done|]. by rewrite IH.
Qed.

Lemma split_pieces_without sep s piece :
  piece ∈ split sep s → sep ∉ String.list_ascii_of_string piece.
Proof.
  revert piece. induction s as [|c s IH]; cbn; intros piece Hin.
  - apply list_elem_of_singleton in Hin as ->. cbn. apply not_elem_of_nil.
  - destruct (Ascii.eqb_spec c sep) as [->|Hc].
    + apply elem_of_cons in Hin as [->|Hin]; [cbn; apply not_elem_of_nil|by apply IH].
    + destruct (split sep s) as [|p ps] eqn:Hsplit; [by destruct (split_not_nil sep s)|].
      apply elem_of_cons in Hin as [->|Hin].
      * cbn. apply not_elem_of_cons. split; [done|]. apply IH. by left.
      * apply IH. by right.
Qed.

(** ** Accumulating without repetition *)

Lemma includes_true xs x : includes xs x = true ↔ x ∈ xs.
Proof. unfold includes. by rewrite bool_decide_eq_true. Qed.

Lemma includes_false xs x : includes xs x = false ↔ x ∉ xs.
Proof. unfold includes. by rewrite bool_decide_eq_false. Qed.

Lemma pushKey_elem found m k :
  k ∈ pushKey found m ↔ k ∈ found ∨ k = m_key m.
Proof.
  unfold pushKey. destruct (includes found (m_key m)) eqn:Hin.
  - apply includes_true in Hin. split; [by left|]. by intros [?| ->].
  - rewrite elem_of_app, list_elem_of_singleton. done.
Qed.

Lemma pushKey_NoDup found m : NoDup found → NoDup (pushKey found m).
Proof.
  intros Hnd. unfold pushKey. destruct (includes found (m_key m)) eqn:Hin; [done|].
  apply includes_false in Hin. apply NoDup_app. split; [done|]. split.
  - intros x Hx ->%list_elem_of_singleton. done.
  - apply NoDup_singleton.
Qed.

(** A left fold whose step only adds what [P] allows, and keeps what is
    there. *)
Lemma foldl_elem {A : Type} (f : list string → A → list string)
    (P : A → string → Prop) :
  (∀ found a k, k ∈ f found a ↔ k ∈ found ∨ P a k) →
  ∀ xs found k, k ∈ foldl f found xs ↔ k ∈ found ∨ ∃ a, a ∈ xs ∧ P a k.
Proof.
  intros Hf xs. induction xs as [|x xs IH]; intros found k; cbn.
  - split; [by left|]. intros [?|(a & Ha & _)]; [done|]. by apply elem_of_nil in Ha.
  - rewrite IH, Hf. split.
    + intros [[?|?]|(a & Ha & Hp)]; [by left|right; exists x; split; [by left|done]|].
      right. exists a. split; [by right|done].
    + intros [?|(a & Ha & Hp)]; [by left; left|].
      apply elem_of_cons in Ha as [->|Ha]; [by left; right|].
      right. by exists a.
Qed.

Lemma foldl_NoDup {A : Type} (f : list string → A → list string) :
  (∀ found a, NoDup found → NoDup (f found a)) →
  ∀ xs found, NoDup found → NoDup (foldl f found xs).
Proof.
  intros Hf xs. induction xs as [|x xs IH]; intros found Hnd; cbn; [done|].
  by apply IH, Hf.
Qed.

Lemma allMetricKeys_NoDup extension :
  NoDup (getAllMetricKeysFromDataSource extension).
Proof.
  unfold getAllMetricKeysFromDataSource.
  apply foldl_NoDup; [|constructor]. intros found group Hnd.
  assert (NoDup match metrics group with
                | Some ms => foldl pushKey found ms
                | None => found
                end) as Hnd1.
  { destruct (metrics group); [|done].
    apply foldl_NoDup; [apply pushKey_NoDup|done]. }
  destruct (subgroups group); [|done].
  apply foldl_NoDup; [|done]. intros found' sg Hnd'.
  apply foldl_NoDup; [apply pushKey_NoDup|done].
Qed.

(** X20: [getAllMetricKeysFromDataSource] returns each metric key of the
    datasource, of groups and subgroups alike, exactly once. *)
Theorem getAllMetricKeysFromDataSource_keys extension :
  NoDup (getAllMetricKeysFromDataSource extension) ∧
  ∀ k, k ∈ getAllMetricKeysFromDataSource extension
       ↔ ∃ group, group ∈ getExtensionDatasource extension ∧ groupHasKey group k.
Proof.
  split; [apply allMetricKeys_NoDup|].
  unfold getAllMetricKeysFromDataSource.
  - intros k. rewrite (foldl_elem _ groupHasKey).
    + rewrite elem_of_nil. naive_solver.
    + clear k. intros found group k. unfold groupHasKey.
      assert (k ∈ match metrics group with
                  | Some ms => foldl pushKey found ms
                  | None => found
                  end
              ↔ k ∈ found ∨ ∃ ms m, metrics group = Some ms ∧ m ∈ ms ∧ m_key m = k)
        as Hm.
      { destruct (metrics group) as [ms|].
        - rewrite (foldl_elem pushKey (λ m k, k = m_key m)) by apply pushKey_elem.
          naive_solver.
        - naive_solver. }
      destruct (subgroups group) as [sgs|].
      * rewrite (foldl_elem _ (λ sg k, ∃ m, m ∈ sg_metrics sg ∧ m_key m = k)).
        { rewrite Hm. naive_solver. }
        intros found' sg k'.
        rewrite (foldl_elem pushKey (λ m k, k = m_key m)) by apply pushKey_elem.
        naive_solver.
      * rewrite Hm. naive_solver.
Qed.

(** ** Metrics of an entity *)

Lemma parsePattern_fault pattern f :
  parsePattern pattern = inl f → f = CannotRead "split" VUndefined.
Proof.
  unfold parsePattern. destruct (split "(" pattern !! 1); [discriminate|]. congruence.
Qed.

Lemma parsePattern_without_paren pattern :
  "("%char ∉ String.list_ascii_of_string pattern →
  parsePattern pattern = inl (CannotRead "split" VUndefined).
Proof. intros Hno. unfold parsePattern. by rewrite split_without. Qed.

Lemma foldl_pushMatching_inl allMetrics f patterns :
  foldl (pushMatching allMetrics) (inl f) patterns = inl f.
Proof. induction patterns; cbn; done. Qed.

Lemma foldl_pushMatching allMetrics patterns :
  NoDup allMetrics →
  ∀ matching result,
    NoDup matching →
    foldl (pushMatching allMetrics) (inr matching) patterns = inr result →
    NoDup result ∧
    ∀ m, m ∈ result
         ↔ m ∈ matching ∨ (m ∈ allMetrics ∧ ∃ p, p ∈ patterns ∧ patternMatches p m).
Proof.
  intros Hall. induction patterns as [|p patterns IH]; intros matching result Hnd Hrun.
  - cbn in Hrun. simplify_eq. split; [done|]. intros m. split; [by left|].
    intros [?|(_ & p & Hp & _)]; [done|]. by apply elem_of_nil in Hp.
  - cbn [foldl] in Hrun. unfold pushMatching at 2 in Hrun.
    destruct (parsePattern p) as [f|[matcher value]] eqn:Hparse.
    { by rewrite foldl_pushMatching_inl in Hrun. }
    apply IH in Hrun as [Hres Hmem].
    + split; [done|]. intros m. rewrite Hmem, elem_of_app, list_elem_of_filter.
      rewrite andb_true_iff, negb_true_iff, includes_false. split.
      * intros [[?|((Hm & Hni) & Hin)]|(Hin & p' & Hp' & Hpm)].
        -- by left.
        -- right. split; [done|]. exists p. split; [by left|].
           by exists matcher, value.
        -- right. split; [done|]. exists p'. split; [by right|done].
      * intros [?|(Hin & p' & Hp' & Hpm)]; [by left; left|].
        apply elem_of_cons in Hp' as [->|Hp'].
        -- destruct Hpm as (mt & v & Hparse' & Hm).
           rewrite Hparse in Hparse'. simplify_eq.
           destruct (decide (m ∈ matching)); [by left; left|].
           left. right. done.
        -- right. split; [done|]. by exists p'.
    + apply NoDup_app. split; [done|]. split; [|by apply NoDup_filter].
      intros x Hx [[_ Hni]%andb_true_iff _]%list_elem_of_filter.
      apply negb_true_iff, includes_false in Hni. done.
Qed.

(** X21: [getEntityMetrics], when it returns: each metric key of the datasource
    that matches one of the Metrics conditions of the topology type and is
    not excluded, exactly once. *)
Theorem getEntityMetrics_keys typeIdx extension excludeKeys result :
  getEntityMetrics typeIdx extension excludeKeys = inr result →
  NoDup result ∧
  ∀ m, m ∈ result
       ↔ (m ∈ getAllMetricKeysFromDataSource extension ∧
          (m ∉ excludeKeys) ∧
          ∃ patterns p,
            getEntityMetricPatterns typeIdx extension = inr patterns ∧
            p ∈ patterns ∧ patternMatches p m).
Proof.
  unfold getEntityMetrics. intros Hrun.
  destruct (getEntityMetricPatterns typeIdx extension) as [f|patterns];
    [discriminate|].
  destruct (foldl _ _ patterns) as [f|matching] eqn:Hfold; [discriminate|].
  simplify_eq.
  pose proof (allMetricKeys_NoDup extension) as Hall.
  apply foldl_pushMatching in Hfold as [Hnd Hmem]; [|done|constructor].
  split; [by apply NoDup_filter|].
  intros m. rewrite list_elem_of_filter, includes_false, Hmem, elem_of_nil.
  clear. naive_solver.
Qed.

(** X22: A condition without an opening parenthesis among the Metrics
    conditions of the type makes [getEntityMetrics] throw a [TypeError],
    whatever the other conditions match. *)
Theorem getEntityMetrics_malformed_pattern typeIdx extension excludeKeys patterns p :
  getEntityMetricPatterns typeIdx extension = inr patterns →
  p ∈ patterns →
  "("%char ∉ String.list_ascii_of_string p →
  getEntityMetrics typeIdx extension excludeKeys
  = inl (CannotRead "split" VUndefined).
Proof.
  intros Hps Hp Hno. unfold getEntityMetrics. rewrite Hps.
  assert (∀ matching,
            foldl (pushMatching (getAllMetricKeysFromDataSource extension))
              (inr matching) patterns = inl (CannotRead "split" VUndefined))
    as ->; [|done].
  clear Hps. induction patterns as [|q patterns IH]; intros matching;
    [by apply elem_of_nil in Hp|].
  cbn [foldl]. unfold pushMatching at 2.
  destruct (parsePattern q) as [f|[mt v]] eqn:Hq.
  - apply parsePattern_fault in Hq as ->. apply foldl_pushMatching_inl.
  - apply elem_of_cons in Hp as [->|Hp]; [|by apply IH].
    by rewrite parsePattern_without_paren in Hq.
Qed.

(** ** Attributes of an entity type *)

Lemma filter_none {A : Type} (P : A → Prop) `{∀ x, Decision (P x)} (l : list A) :
  (∀ x, x ∈ l → ¬ P x) → filter P l = [].
Proof.
  induction l as [|x l IH]; intros Hno; [done|].
  rewrite filter_cons_False by (apply Hno; by left).
  apply IH. intros y Hy. apply Hno. by right.
Qed.

Lemma filter_all {A : Type} (P : A → Prop) `{∀ x, Decision (P x)} (l : list A) :
  (∀ x, P x) → filter P l = l.
Proof.
  intros Hall. induction l as [|x l IH]; [done|].
  by rewrite filter_cons_True, IH.
Qed.

Lemma filter_bind {A B : Type} (P : B → Prop) `{∀ x, Decision (P x)}
    (f : A → list B) (l : list A) :
  filter P (l ≫= f) = l ≫= (λ x, filter P (f x)).
Proof.
  induction l as [|x l IH]; [done|]. by rewrite !bind_cons, filter_app, IH.
Qed.

Lemma fmap_bind {A B C : Type} (g : B → C) (f : A → list B) (l : list A) :
  g <$> (l ≫= f) = l ≫= (λ x, g <$> f x).
Proof.
  induction l as [|x l IH]; [done|]. by rewrite !bind_cons, fmap_app, IH.
Qed.

Section Facts.

Variable toLowerCase : string → string.
Variable toUpperCase : string → string.

(** X23: With a list of keys to exclude, [getAttributesFromTopology] returns
    the attributes whose key is in the list, and no other: the filter
    keeps what it is documented to drop.  With an empty list it returns
    nothing. *)
Theorem getAttributesFromTopology_only_listed entity extension keys :
  Forall (λ a, a_key a ∈ keys)
    (getAttributesFromTopology toLowerCase entity extension (Some keys)) ∧
  (keys = [] →
   getAttributesFromTopology toLowerCase entity extension (Some keys) = []).
Proof.
  assert (Forall (λ a, a_key a ∈ keys)
            (getAttributesFromTopology toLowerCase entity extension (Some keys)))
    as Hall.
  { apply Forall_forall. intros a. unfold getAttributesFromTopology.
    intros (ty & (rule & (p & Ha & Hp)%list_elem_of_bind & _)%list_elem_of_bind & _)
             %list_elem_of_bind.
    apply list_elem_of_singleton in Ha as ->. cbn.
    apply list_elem_of_filter in Hp as [Hp _]. by apply includes_true. }
  split; [done|]. intros ->.
  destruct (getAttributesFromTopology _ _ _ _) as [|a l]; [done|].
  apply Forall_inv in Hall. by apply elem_of_nil in Hall.
Qed.

(** X24: The comparison is between the lowercased name of the type and the
    entity type as given: for an entity type that lowercasing changes, no
    type is found and both functions return nothing. *)
Theorem getAttributes_not_lowercase entity extension excludeKeys :
  (∀ s, toLowerCase (toLowerCase s) = toLowerCase s) →
  toLowerCase entity ≠ entity →
  getAttributesKeysFromTopology toLowerCase entity extension = [] ∧
  getAttributesFromTopology toLowerCase entity extension excludeKeys = [].
Proof.
  intros Hidem Hne.
  assert (filter (λ ty, toLowerCase (t_name ty) = entity)
            (types (topology extension)) = []) as Hnone.
  { apply filter_none. intros ty _ Hty. apply Hne. by rewrite <- Hty, Hidem. }
  unfold getAttributesKeysFromTopology, getAttributesFromTopology.
  by rewrite Hnone.
Qed.

(** X25: The keys returned by [getAttributesKeysFromTopology] are those of the
    attributes returned by [getAttributesFromTopology] without exclusion
    list, in the same order, the empty keys left out. *)
Theorem getAttributesKeysFromTopology_keys entity extension :
  getAttributesKeysFromTopology toLowerCase entity extension
  = filter (λ k, k ≠ "")
      (a_key <$> getAttributesFromTopology toLowerCase entity extension None).
Proof.
  unfold getAttributesKeysFromTopology, getAttributesFromTopology.
  rewrite fmap_bind, filter_bind. apply list_bind_ext; [|done]. intros ty.
  rewrite fmap_bind, filter_bind. apply list_bind_ext; [|done]. intros rule.
  rewrite fmap_bind, filter_bind.
  rewrite (filter_all (λ _ : Attribute, true = true)) by done.
  induction (attributes rule) as [|a l IH]; [done|].
  rewrite !bind_cons, IH. f_equal.
  change (a_key <$> [{| a_key := a_key a; a_displayName := a_displayName a |}])
    with [a_key a].
  destruct (String.eqb_spec (a_key a) "") as [Heq|Hne]; cbn [negb].
  - by rewrite filter_cons_False by (by intros ?).
  - by rewrite filter_cons_True.
Qed.

(** ** Relationship names *)

Lemma camelTail_throws newStr chunks :
  (∃ f, camelTail toUpperCase newStr chunks = inl f) ↔ "" ∈ chunks.
Proof.
  revert newStr. induction chunks as [|chunk chunks IH]; intros newStr; cbn.
  - split; [by intros [? ?]|]. by intros ?%elem_of_nil.
  - destruct chunk as [|c rest]; cbn.
    + split; [by left|]. by eexists.
    + rewrite IH. split; [by right|].
      by intros [?|?]%elem_of_cons.
Qed.

(** X26: [toCamelCase] throws a [TypeError] exactly when one of the pieces
    of the lowercased text after the first is empty, as with two underscores
    in a row or one at the end. *)
Theorem toCamelCase_throws_iff text :
  (∃ f, toCamelCase toLowerCase toUpperCase text = inl f)
  ↔ "" ∈ tail (split "_" (toLowerCase text)).
Proof.
  unfold toCamelCase.
  destruct (split "_" (toLowerCase text)) as [|chunk chunks] eqn:Hs.
  - by destruct (split_not_nil "_" (toLowerCase text)).
  - apply camelTail_throws.
Qed.

(** X27: A text without underscore comes back lowercased as a whole: an inner
    capital is lost. *)
Theorem toCamelCase_one_piece text :
  "_"%char ∉ String.list_ascii_of_string (toLowerCase text) →
  toCamelCase toLowerCase toUpperCase text = inr (toLowerCase text).
Proof. intros Hno. unfold toCamelCase. by rewrite split_without. Qed.

End Facts.

(** ** Metric keys of a chart card *)

Lemma selectorKey_without_colon metricSelector :
  ":"%char ∉ String.list_ascii_of_string (selectorKey metricSelector).
Proof.
  unfold selectorKey. apply (split_pieces_without _ metricSelector).
  destruct (split ":" metricSelector) eqn:Hs;
    [by destruct (split_not_nil ":" metricSelector)|].
  by left.
Qed.

(** X28: The keys that [getMetricKeysFromChartCard] returns hold no colon: of
    each selector only what precedes the first colon is kept. *)
Theorem getMetricKeysFromChartCard_keys screenIdx cardIdx extension keys :
  getMetricKeysFromChartCard screenIdx cardIdx extension = inr keys →
  Forall (λ k, ":"%char ∉ String.list_ascii_of_string k) keys.
Proof.
  unfold getMetricKeysFromChartCard. intros Hrun.
  destruct (screens extension) as [ss|]; [|discriminate].
  destruct (at_index "chartsCards" ss screenIdx) as [f|screen]; [discriminate|].
  destruct (chartsCards screen) as [cards|]; [|discriminate].
  destruct (at_index "charts" cards cardIdx) as [f|card]; [discriminate|].
  simplify_eq. apply Forall_forall. intros k (c & Hk & _)%list_elem_of_bind.
  rewrite !elem_of_app in Hk. destruct Hk as [Hk|[Hk|Hk]].
  - destruct (graphChartConfig c); [|by apply elem_of_nil in Hk].
    apply list_elem_of_fmap in Hk as (ms & -> & _). apply selectorKey_without_colon.
  - destruct (pieChartConfig c); [|by apply elem_of_nil in Hk].
    apply list_elem_of_singleton in Hk as ->. apply selectorKey_without_colon.
  - destruct (singleValueConfig c); [|by apply elem_of_nil in Hk].
    apply list_elem_of_singleton in Hk as ->. apply selectorKey_without_colon.
Qed.

(** ** Dimensions of matching metrics *)

Lemma foldl_NoDup_in {A : Type} (f : list string → A → list string) (xs : list A) :
  (∀ found a, a ∈ xs → NoDup found → NoDup (f found a)) →
  ∀ found, NoDup found → NoDup (foldl f found xs).
Proof.
  induction xs as [|x xs IH]; intros Hf found Hnd; cbn; [done|].
  apply IH.
  - intros found' a Ha. apply Hf. by right.
  - apply Hf; [by left|done].
Qed.

Lemma foldl_unchanged {A B : Type} (f : B → A → B) (xs : list A) (b : B) :
  (∀ b a, f b a = b) → foldl f b xs = b.
Proof. intros Hf. induction xs as [|x xs IH]; cbn; [done|]. by rewrite Hf. Qed.

Lemma NoDup_fmap_filter {A : Type} (f : A → string) (P : A → Prop)
    `{∀ x, Decision (P x)} (l : list A) :
  NoDup (f <$> l) → NoDup (f <$> filter P l).
Proof.
  induction l as [|x l IH]; [done|]. cbn [fmap list_fmap].
  intros [Hx Hl]%NoDup_cons. rewrite filter_cons. case_decide; [|by apply IH].
  cbn [fmap list_fmap]. apply NoDup_cons. split; [|by apply IH].
  intros (y & Hy & [_ Hin]%list_elem_of_filter)%list_elem_of_fmap.
  apply Hx. apply list_elem_of_fmap. by exists y.
Qed.

Lemma pushDimensions_NoDup found ds :
  NoDup found → distinctKeys ds → NoDup (pushDimensions found ds).
Proof.
  intros Hnd Hds. unfold pushDimensions. destruct ds as [l|]; [|done].
  apply NoDup_app. split; [done|]. split.
  - intros x Hx (d & -> & [Hd _]%list_elem_of_filter)%list_elem_of_fmap.
    by apply includes_false in Hd.
  - apply NoDup_fmap_filter. by apply Hds.
Qed.

(** X29: When the keys of each list of dimensions of the datasource are
    distinct, [getDimensionsFromMatchingMetrics] returns no key twice, also
    when groups and subgroups share dimensions. *)
Theorem getDimensionsFromMatchingMetrics_NoDup conditionPattern extension result :
  (∀ group, group ∈ getExtensionDatasource extension →
     distinctKeys (dimensions group) ∧
     ∀ sgs sg, subgroups group = Some sgs → sg ∈ sgs → distinctKeys (sg_dimensions sg)) →
  getDimensionsFromMatchingMetrics conditionPattern extension = inr result →
  NoDup result.
Proof.
  intros Hdistinct. unfold getDimensionsFromMatchingMetrics.
  destruct (parsePattern conditionPattern) as [f|[matcher pattern]]; [discriminate|].
  intros [= <-]. apply foldl_NoDup_in; [|constructor].
  intros found group Hgroup Hnd. destruct (Hdistinct group Hgroup) as [Hg Hsg].
  assert (NoDup match metrics group with
                | Some ms =>
                    if anyMatches matcher pattern ms
                    then pushDimensions found (dimensions group) else found
                | None => found
                end) as Hnd1.
  { destruct (metrics group) as [ms|]; [|done].
    destruct (anyMatches matcher pattern ms); [|done].
    by apply pushDimensions_NoDup. }
  destruct (subgroups group) as [sgs|] eqn:Hsgs; [|done].
  apply foldl_NoDup_in; [|done]. intros found' sg Hin Hnd'.
  destruct (anyMatches matcher pattern (sg_metrics sg)); [|done].
  apply pushDimensions_NoDup; [by apply pushDimensions_NoDup|].
  by apply (Hsg sgs).
Qed.

(** X30: A condition whose matcher is neither [$eq] nor [$prefix] matches no
    metric: [getDimensionsFromMatchingMetrics] returns no dimension. *)
Theorem getDimensionsFromMatchingMetrics_other_matcher
    conditionPattern extension matcher pattern :
  parsePattern conditionPattern = inr (matcher, pattern) →
  matcher ≠ "$eq" →
  matcher ≠ "$prefix" →
  getDimensionsFromMatchingMetrics conditionPattern extension = inr [].
Proof.
  intros Hparse Heq Hprefix. unfold getDimensionsFromMatchingMetrics.
  rewrite Hparse. f_equal.
  assert (∀ ms, anyMatches matcher pattern ms = false) as Hnone.
  { intros ms. unfold anyMatches. rewrite filter_none; [done|].
    intros m _. unfold matchesKey.
    destruct (String.eqb_spec matcher "$eq"); [done|].
    destruct (String.eqb_spec matcher "$prefix"); [done|]. done. }
  apply foldl_unchanged. intros found group.
  assert (match metrics group with
          | Some ms =>
              if anyMatches matcher pattern ms
              then pushDimensions found (dimensions group) else found
          | None => found
          end = found) as ->.
  { destruct (metrics group); [|done]. by rewrite Hnone. }
  destruct (subgroups group); [|done].
  apply foldl_unchanged. intros found' sg. by rewrite Hnone.
Qed.


End ExtensionParsingFacts.

Lemma makeRequest_content_type_kept_witness :
  req_headers (issued Sample.client "/api/v2/settings" Sample.filters (Some "POST")
                 (Some 0) VUndefined None None
                 (Sample.callerWorld {["Content-Type" := "text/plain"]}))
  = <["Authorization" := "Api-Token " +:+ "dt0c01.TOKEN"]>
      (readObject 0 (Sample.callerWorld {["Content-Type" := "text/plain"]})).
Proof.
  apply (makeRequest_content_type_kept Sample.client
           "/api/v2/settings" Sample.filters (Some "POST") 0 VUndefined None
           (Sample.callerWorld {["Content-Type" := "text/plain"]})).
  compute_done.
Defined.

(** * Concrete manifests *)

Module ManifestRuns.
Import ExtensionParsing.

Lemma lowerChar_again c :
  SampleManifest.lowerChar (SampleManifest.lowerChar c) = SampleManifest.lowerChar c.
Proof. destruct c as [[] [] [] [] [] [] [] []]; reflexivity. Defined.

Lemma lower_again s : SampleManifest.lower (SampleManifest.lower s) = SampleManifest.lower s.
Proof.
  induction s as [|c s IH]; [reflexivity|].
  cbn. f_equal; [apply lowerChar_again|exact IH].
Defined.

(** Two conditions that match the same metric, and an exclusion. *)
Lemma getEntityMetrics_keys_witness :
  let extension :=
    SampleManifest.manifest
      ["$prefix(custom.cpu)"; "$eq(custom.disk.free)"; "$eq(custom.cpu.usage)"] in
  let result := ["custom.cpu.usage"; "custom.disk.free"] in
  NoDup result ∧
  ∀ m, m ∈ result
       ↔ (m ∈ getAllMetricKeysFromDataSource extension ∧
          (m ∉ ["custom.mem.usage"]) ∧
          ∃ patterns p,
            getEntityMetricPatterns 0 extension = inr patterns ∧
            p ∈ patterns ∧ patternMatches p m).
Proof.
  apply (ExtensionParsingFacts.getEntityMetrics_keys 0
           (SampleManifest.manifest
              ["$prefix(custom.cpu)"; "$eq(custom.disk.free)"; "$eq(custom.cpu.usage)"])
           ["custom.mem.usage"]).
  vm_compute. reflexivity.
Defined.

Lemma getEntityMetrics_malformed_pattern_witness :
  getEntityMetrics 0
    (SampleManifest.manifest ["$prefix(custom.cpu)"; "custom.disk.free"]) []
  = inl (CannotRead "split" VUndefined).
Proof.
  apply (ExtensionParsingFacts.getEntityMetrics_malformed_pattern 0
           (SampleManifest.manifest ["$prefix(custom.cpu)"; "custom.disk.free"]) []
           ["$prefix(custom.cpu)"; "custom.disk.free"] "custom.disk.free").
  - vm_compute. reflexivity.
  - compute_done.
  - compute_done.
Defined.

(** The entity type as written in the manifest, capital included. *)
Lemma getAttributes_not_lowercase_witness :
  getAttributesKeysFromTopology SampleManifest.lower "custom:Host"
    (SampleManifest.manifest []) = [] ∧
  getAttributesFromTopology SampleManifest.lower "custom:Host"
    (SampleManifest.manifest []) None = [].
Proof.
  apply (ExtensionParsingFacts.getAttributes_not_lowercase SampleManifest.lower
           "custom:Host" (SampleManifest.manifest []) None).
  - exact lower_again.
  - vm_compute. discriminate.
Defined.

(** Relationship names: the usual case, a leading underscore, and the two
    shapes that throw. *)
Example toCamelCase_examples :
  toCamelCase SampleManifest.lower SampleManifest.upper "RUNS_ON" = inr "runsOn" ∧
  toCamelCase SampleManifest.lower SampleManifest.upper "_SAME_AS" = inr "SameAs" ∧
  toCamelCase SampleManifest.lower SampleManifest.upper "SAME__AS"
  = inl (CannotRead "toUpperCase" VUndefined) ∧
  toCamelCase SampleManifest.lower SampleManifest.upper "SAME_AS_"
  = inl (CannotRead "toUpperCase" VUndefined).
Proof. repeat split; reflexivity. Qed.

Example getRelationships_example :
  getRelationships SampleManifest.lower SampleManifest.upper "custom:disk" To
    (SampleManifest.manifest []) = inr ["runsOn"] ∧
  getRelationships SampleManifest.lower SampleManifest.upper "custom:disk" From
    (SampleManifest.manifest []) = inr [].
Proof. split; reflexivity. Qed.

Lemma toCamelCase_one_piece_witness :
  toCamelCase SampleManifest.lower SampleManifest.upper "runsOn" = inr "runson".
Proof.
  apply (ExtensionParsingFacts.toCamelCase_one_piece SampleManifest.lower
           SampleManifest.upper "runsOn").
  compute_done.
Defined.

Lemma getMetricKeysFromChartCard_keys_witness :
  Forall (λ k, ":"%char ∉ String.list_ascii_of_string k)
    ["custom.cpu.usage"; "custom.mem.usage"; "custom.disk.free"].
Proof.
  apply (ExtensionParsingFacts.getMetricKeysFromChartCard_keys 0 0
           (SampleManifest.manifest [])).
  vm_compute. reflexivity.
Defined.

(** The group and its subgroup share the dimension "host". *)
Lemma getDimensionsFromMatchingMetrics_NoDup_witness : NoDup ["host"; "disk"].
Proof.
  apply (ExtensionParsingFacts.getDimensionsFromMatchingMetrics_NoDup
           "$prefix(custom.disk)" (SampleManifest.manifest [])).
  - intros group Hgroup. apply list_elem_of_singleton in Hgroup as ->. split.
    + intros l [= <-]. compute_done.
    + intros sgs sg [= <-] Hsg. apply list_elem_of_singleton in Hsg as ->.
      intros l [= <-]. compute_done.
  - vm_compute. reflexivity.
Defined.

Lemma getDimensionsFromMatchingMetrics_other_matcher_witness :
  getDimensionsFromMatchingMetrics "$regex(custom.*)" (SampleManifest.manifest [])
  = inr [].
Proof.
  apply (ExtensionParsingFacts.getDimensionsFromMatchingMetrics_other_matcher
           "$regex(custom.*)" (SampleManifest.manifest []) "$regex" "custom.*").
  - vm_compute. reflexivity.
  - discriminate.
  - discriminate.
Defined.

End ManifestRuns.
